(** * The PyTorch platform handler of the Python backend

    A shallow embedding of
    [src/resources/platform_handlers/pytorch/model.py]: the model locator,
    device resolution, the compile-parameter reader, the subclass scan, the
    batching engine and the [initialize] / [execute] entry points of
    [TritonPythonModel], followed by the properties the specification
    states about them.

    Python exceptions are values of [exn]; a function that may raise
    returns a [result].  Dictionaries read by key are records (the model
    configuration) or finite maps (its [parameters]); Python lists are
    lists.  What the file takes from the host server, the file system, the
    interpreter and the tensor runtime is either a variable of the section
    that uses it or a small executable model described where it is
    introduced.  The calls to the logger compute nothing the handler uses
    and are left out; the model configuration is taken as parsed. *)

From Stdlib Require Import ZArith Lia Bool Ascii String.
From stdpp Require Import base option list strings gmap.

Open Scope string_scope.
Open Scope list_scope.

Set Warnings "-register-all".

(** ** Exceptions and the error monad *)

Inductive exn : Type :=
| TritonModelException (msg : string)
| TypeError
| IndexError
| KeyError
| AttributeError
| ValueError
| RuntimeError
| JSONDecodeError.

Inductive result (A : Type) : Type :=
| Ok (a : A)
| Raise (e : exn).

Arguments Ok {A} a.
Arguments Raise {A} e.

#[global] Instance result_ret : MRet result := fun _ a => Ok a.
#[global] Instance result_bind : MBind result := fun _ _ f m =>
  match m with
  | Ok a => f a
  | Raise e => Raise e
  end.
#[global] Instance result_fmap : FMap result := fun _ _ f m =>
  match m with
  | Ok a => Ok (f a)
  | Raise e => Raise e
  end.

Definition is_ok {A} (r : result A) : bool :=
  match r with Ok _ => true | Raise _ => false end.

(** [l[i]] on a Python list: [IndexError] out of range. *)
Definition getitem {A} (l : list A) (i : nat) : result A :=
  match l !! i with
  | Some x => Ok x
  | None => Raise IndexError
  end.

(** ** The model configuration

    [json.loads(args["model_config"])], restricted to the fields the
    handler reads.  An input or output descriptor is read for its [name]
    only; a parameter for its [string_value]. *)

Record io_descriptor : Type := { name : string }.

Record parameter : Type := { string_value : string }.

Record model_config : Type := {
  max_batch_size : Z;
  input : list io_descriptor;
  output : list io_descriptor;
  default_model_filename : string;
  parameters : gmap string parameter
}.

(** ** Paths *)

Definition sep : ascii := "/"%char.

Definition startswith_sep (s : string) : bool :=
  match s with
  | String c _ => Ascii.eqb c sep
  | EmptyString => false
  end.

Fixpoint endswith_sep (s : string) : bool :=
  match s with
  | EmptyString => false
  | String c EmptyString => Ascii.eqb c sep
  | String _ rest => endswith_sep rest
  end.

(** [os.path.join(a, b)] of [posixpath]: an absolute [b] replaces [a]; a
    separator is added unless [a] is empty or already ends with one. *)
Definition os_path_join (a b : string) : string :=
  if startswith_sep b then b
  else if String.eqb a "" || endswith_sep a then a +:+ b
  else a +:+ "/" +:+ b.

(** Truth value of a Python string: the empty string is false. *)
Definition truthy (s : string) : bool := negb (String.eqb s "").

(** [s[-3:]]: the last three characters, or all of [s] when it is shorter. *)
Definition last3 (s : string) : string :=
  substring (String.length s - 3) 3 s.

(** ** Model locator *)

Section Locator.
(** [pb_utils.get_model_dir()], [os.path.exists] and [str] of a list of
    strings. *)
Variable get_model_dir : string.
Variable os_path_exists : string -> bool.
Variable py_str : list string -> string.

Definition candidate_filenames (config : model_config) : list string :=
  let filenames := ["model.py"; "model.pt"; "model.pth"] in
  if truthy (default_model_filename config)
  then default_model_filename config :: filenames
  else filenames.

Fixpoint first_existing (filenames : list string) : option string :=
  match filenames with
  | [] => None
  | filename :: rest =>
      let model_path := os_path_join get_model_dir filename in
      if os_path_exists model_path then Some model_path
      else first_existing rest
  end.

Definition no_model_found (filenames : list string) : exn :=
  TritonModelException
    ("No model found in " +:+ get_model_dir +:+ "/" +:+ py_str filenames).

Definition _get_model_path (config : model_config) : result string :=
  let filenames := candidate_filenames config in
  match first_existing filenames with
  | Some model_path => Ok model_path
  | None => Raise (no_model_found filenames)
  end.

Fixpoint first_data_path (model_path : string) (extensions : list string)
  : string :=
  match extensions with
  | [] => ""
  | extension :: rest =>
      let data_path := model_path +:+ extension in
      if os_path_exists data_path then data_path
      else first_data_path model_path rest
  end.

Definition _get_model_data_path (model_path : string) : string :=
  let data_path_extensions := [".pt"; ".pth"] in
  first_data_path model_path data_path_extensions.
End Locator.

Definition _is_py_class_model (model_path : string) : bool :=
  String.eqb (last3 model_path) ".py".

(** ** Device resolution *)

Definition _get_device_name (model_instance_kind model_instance_device_id : string)
  : string :=
  if String.eqb model_instance_kind "GPU" then "cuda:" +:+ model_instance_device_id
  else if String.eqb model_instance_kind "CPU" then "cpu"
  else "".

(** A device object, [torch.device(name)].  Whether the runtime accepts a
    device string is its own business: [device_ok] stands for that test. *)
Inductive torch_device : Type := Device (device_name : string).

#[global] Instance torch_device_eq_dec : EqDecision torch_device.
Proof. solve_decision. Defined.

Section Device.
Variable device_ok : string -> bool.

Definition make_device (device_name : string) : result torch_device :=
  if device_ok device_name then Ok (Device device_name)
  else Raise RuntimeError.

Definition _get_device (model_instance_kind model_instance_device_id : string)
  : result (option torch_device) :=
  let device_name :=
    _get_device_name model_instance_kind model_instance_device_id in
  if negb (String.eqb device_name "") then
    Some <$> make_device device_name
  else
    (* leave torch objects at its default device *)
    Ok None.
End Device.

(** ** Tensors

    The tensor runtime is outside the handler.  The model below keeps what
    the handler's calls observe: the device a tensor lives on, its shape,
    and its elements in row-major order, so that joining along axis 0 is
    appending the element lists and splitting along axis 0 is cutting
    them. *)

Record tensor : Type := {
  tensor_device : torch_device;
  shape : list nat;
  data : list Z
}.

#[global] Instance tensor_eq_dec : EqDecision tensor.
Proof. solve_decision. Defined.

Definition numel (dims : list nat) : nat := foldr Nat.mul 1 dims.

(** A tensor holds as many elements as its shape says. *)
Definition tensor_wf (t : tensor) : Prop := length (data t) = numel (shape t).

(** [t.size()] *)
Definition size (t : tensor) : list nat := shape t.


(** [torch.cat((a, b), 0)]: both tensors on one device, of rank at least
    one and equal outside axis 0; a one-dimensional empty tensor is
    skipped. *)
Definition torch_cat (a b : tensor) : result tensor :=
  if negb (bool_decide (tensor_device a = tensor_device b)) then Raise RuntimeError
  else
    match shape a, shape b with
    | [], _ | _, [] => Raise RuntimeError
    | [0], _ => Ok b
    | _, [0] => Ok a
    | n :: inner_a, m :: inner_b =>
        if bool_decide (inner_a = inner_b) then
          Ok {| tensor_device := tensor_device a;
                shape := (n + m) :: inner_a;
                data := data a ++ data b |}
        else Raise RuntimeError
    end.

(** The pieces of [torch.split(t, sections)] along axis 0, given the
    shape below axis 0. *)
Fixpoint split_pieces (device : torch_device) (inner : list nat)
    (sections : list nat) (elements : list Z) : list tensor :=
  match sections with
  | [] => []
  | n :: rest =>
      {| tensor_device := device;
         shape := n :: inner;
         data := take (n * numel inner) elements |}
      :: split_pieces device inner rest (drop (n * numel inner) elements)
  end.

(** [torch.split(t, sections)] with a list of sizes: the sizes must add up
    to the length of axis 0. *)
Definition torch_split (t : tensor) (sections : list nat) : result (list tensor) :=
  match shape t with
  | [] => Raise RuntimeError
  | n :: inner =>
      if bool_decide (sum_list sections = n) then
        Ok (split_pieces (tensor_device t) inner sections (data t))
      else Raise RuntimeError
  end.

Section Placement.
(** Whether the runtime can place objects on a device. *)
Variable device_available : torch_device -> bool.

(** [t.to(device)] *)
Definition tensor_to (t : tensor) (device : torch_device) : result tensor :=
  if device_available device then
    Ok {| tensor_device := device; shape := shape t; data := data t |}
  else Raise RuntimeError.

(** [_torch_object_to_device] on a tensor. *)
Definition _torch_object_to_device (obj : tensor)
    (device : option torch_device) : result tensor :=
  match device with
  | Some d => tensor_to obj d
  | None =>
      (* leave object at its current device *)
      Ok obj
  end.
End Placement.

(** ** Batching and unbatching *)

(** The inner loop of [_batch_torch_tensors], over the slots [j], [j+1],
    ... of one request. *)
Fixpoint batch_request (request_tensors : list tensor) (j : nat)
    (batch_tensors : list tensor) : result (list tensor) :=
  match request_tensors with
  | [] => Ok batch_tensors
  | request_tensor :: rest =>
      if bool_decide (j < length batch_tensors)%nat then
        (* add to existing tensor *)
        tensor ← getitem batch_tensors j;
        _ ← torch_cat tensor request_tensor;
        batch_request rest (S j) batch_tensors
      else
        (* start a new tensor *)
        batch_request rest (S j) (batch_tensors ++ [request_tensor])
  end.

(** The outer loop, over the requests. *)
Fixpoint batch_requests (requests_tensors : list (list tensor))
    (batch_tensors : list tensor) (sections : list nat)
  : result (list tensor * list nat) :=
  match requests_tensors with
  | [] => Ok (batch_tensors, sections)
  | request_tensors :: rest =>
      batch_tensors ← batch_request request_tensors 0 batch_tensors;
      (* record section *)
      first ← getitem request_tensors 0;
      section_length ← getitem (size first) 0;
      batch_requests rest batch_tensors (sections ++ [section_length])
  end.

Definition _batch_torch_tensors (requests_tensors : list (list tensor))
  : result (list (list tensor) * list nat) :=
  bs ← batch_requests requests_tensors [] [];
  mret ([bs.1], bs.2).

(** The inner loop of [_unbatch_torch_tensors], over the pieces [i],
    [i+1], ... of one output slot. *)
Fixpoint unbatch_pieces (responses_tensor : list tensor) (i : nat)
    (responses_tensors : list (list tensor)) : result (list (list tensor)) :=
  match responses_tensor with
  | [] => Ok responses_tensors
  | response_tensor :: rest =>
      let responses_tensors :=
        if bool_decide (length responses_tensors ≤ i)%nat
        then (* add a new response *) responses_tensors ++ [[]]
        else responses_tensors in
      response ← getitem responses_tensors i;
      unbatch_pieces rest (S i)
        (<[i := response ++ [response_tensor]]> responses_tensors)
  end.

(** The outer loop, over the output slots. *)
Fixpoint unbatch_slots (response_tensors : list tensor) (sections : list nat)
    (responses_tensors : list (list tensor)) : result (list (list tensor)) :=
  match response_tensors with
  | [] => Ok responses_tensors
  | response_tensor :: rest =>
      responses_tensor ← torch_split response_tensor sections;
      responses_tensors ← unbatch_pieces responses_tensor 0 responses_tensors;
      unbatch_slots rest sections responses_tensors
  end.

Definition _unbatch_torch_tensors (response_tensors : list tensor)
    (sections : list nat) : result (list (list tensor)) :=
  unbatch_slots response_tensors sections [].

(** ** Batching as the specification words it

    The specification has [batch] join, for every input slot, the tensors
    all requests hold in that slot, in request order, and record for every
    request the axis-0 length of its slot-0 tensor.  [spec_batch] is that
    reading, kept apart from [_batch_torch_tensors] to compare the two. *)

(** [torch.cat] along axis 0 of a tensor and the tensors after it. *)
Fixpoint cat_onto (joined : tensor) (tensors : list tensor) : result tensor :=
  match tensors with
  | [] => Ok joined
  | t :: rest => joined ← torch_cat joined t; cat_onto joined rest
  end.

Definition spec_merge_slot (requests_tensors : list (list tensor)) (j : nat)
  : result tensor :=
  slot ← mapM (fun request_tensors => getitem request_tensors j) requests_tensors;
  match slot with
  | [] => Raise IndexError
  | t :: rest => cat_onto t rest
  end.

Definition spec_section (request_tensors : list tensor) : result nat :=
  first ← getitem request_tensors 0;
  getitem (size first) 0.

Definition spec_batch (requests_tensors : list (list tensor))
  : result (list (list tensor) * list nat) :=
  let slots := seq 0 (length (default [] (head requests_tensors))) in
  merged ← mapM (spec_merge_slot requests_tensors) slots;
  sections ← mapM spec_section requests_tensors;
  mret ([merged], sections).

(** A tensor that fits a slot, given by its device and its shape below
    axis 0: it is on that device, has length [n] along axis 0 and the
    slot's shape below, and holds as many elements as its shape says. *)
Definition fits (slot : torch_device * list nat) (n : nat) (t : tensor) : Prop :=
  tensor_wf t /\ tensor_device t = slot.1 /\ shape t = n :: slot.2.

(** Requests that can be batched: request [i] holds, in every slot, a
    tensor that fits the slot with the axis-0 length [lengths[i]] of the
    request. *)
Definition batchable (slots : list (torch_device * list nat))
    (lengths : list nat) (requests_tensors : list (list tensor)) : Prop :=
  Forall2 (fun request_tensors n =>
             Forall2 (fun t slot => fits slot n t) request_tensors slots)
          requests_tensors lengths.

(** The tensors the requests hold in slot [j]. *)
Definition column_of (requests_tensors : list (list tensor)) (j : nat)
    (column : list tensor) : Prop :=
  Forall2 (fun request_tensors t => request_tensors !! j = Some t)
          requests_tensors column.

(** One more tensor at the end of every row. *)
Definition snoc_all (rows : list (list tensor)) (column : list tensor)
  : list (list tensor) :=
  zip_with (fun row t => row ++ [t]) rows column.

(** ** Compile parameters *)

(** A value read by [json.loads]. *)
Inductive json : Type :=
| JNull
| JBool (b : bool)
| JInt (z : Z)
| JFloat (digits : string)
| JString (s : string)
| JArray (items : list json)
| JObject (members : list (string * json)).

Definition is_string (key : string) (v : json) : bool :=
  match v with
  | JString s => String.eqb key s
  | _ => false
  end.

(** [key in container] for a string [key]: a key of a dict, an element of
    a list, a substring of a string; [TypeError] on anything else. *)
Definition py_in (key : string) (container : json) : result bool :=
  match container with
  | JObject members => Ok (bool_decide (key ∈ members.*1))
  | JArray items => Ok (existsb (is_string key) items)
  | JString s => Ok (bool_decide (is_Some (index 0 key s)))
  | JNull | JBool _ | JInt _ | JFloat _ => Raise TypeError
  end.

Definition model_not_optional : exn :=
  TritonModelException "'model' is not an optional parameter for 'torch.compile'".

Section CompileParams.
Variable json_loads : string -> result json.

Definition _get_torch_compile_params (config : model_config) : result json :=
  match parameters config !! "TORCH_COMPILE_OPTIONAL_PARAMETERS" with
  | Some p =>
      let val := string_value p in
      params ← json_loads val;
      reserved ← py_in "model" params;
      if (reserved : bool) then Raise model_not_optional else Ok params
  | None => Ok (JObject [])
  end.
End CompileParams.

(** ** Subclass scan *)

Record py_class : Type := {
  class_name : string;
  (** what [issubclass(cls, torch.nn.Module)] answers *)
  derives_from_nn_Module : bool
}.

(** An attribute of a loaded module: a class, or anything else. *)
Inductive py_object : Type :=
| PyClass (c : py_class)
| PyOther (repr : string).

(** A loaded module as the scan sees it: the names [dir(module)] lists, in
    that order, each with the object [getattr(module, name)] returns. *)
Definition py_module : Type := list (string * py_object).

(** [issubclass(attr, torch.nn.Module)] *)
Definition issubclass_nn_Module (attr : py_object) : result bool :=
  match attr with
  | PyClass c => Ok (derives_from_nn_Module c)
  | PyOther _ => Raise TypeError
  end.

Definition no_model_class : exn :=
  TritonModelException "Cannot find a subclass of torch.nn.Module".

Fixpoint _get_model_class_from_module (module : py_module) : result py_object :=
  match module with
  | [] => Raise no_model_class
  | (name, attr) :: names =>
      match issubclass_nn_Module attr with
      | Ok true => Ok attr
      | Ok false => _get_model_class_from_module names
      | Raise TypeError =>
          (* attr may not be a class *)
          _get_model_class_from_module names
      | Raise e => Raise e
      end
  end.

Definition _parse_io_config (io_config : list io_descriptor) : list io_descriptor :=
  map (fun conf => {| name := name conf |}) io_config.

(** ** Requests and responses *)

(** A named tensor of the host, [pb_utils.Tensor]; handing it over through
    DLPack keeps the tensor. *)
Record pb_tensor : Type := { pb_name : string; pb_value : tensor }.

Record inference_request : Type := { request_inputs : list pb_tensor }.

Record inference_response : Type := { output_tensors : list pb_tensor }.

(** Modelled from the spec: [pb_utils.get_input_tensor_by_name], which is
    not among the sources.  A request exposes named input tensors and the
    call fetches the one with the given name; without such a tensor there
    is nothing to fetch, which is Python's [None]. *)
Definition get_input_tensor_by_name (request : inference_request)
    (input_name : string) : option pb_tensor :=
  find (fun t => String.eqb (pb_name t) input_name) (request_inputs request).

(** ** Calls made by [execute]

    [execute] is written over a log of the calls it makes to the batcher,
    the model and the unbatcher. *)
Inductive event : Type :=
| CallBatcher (requests_tensors : list (list tensor))
| CallModel (input_tensors : list tensor)
| CallUnbatcher (response_tensors : list tensor) (sections : list nat).

Record traced (A : Type) : Type := Traced {
  calls : list event;
  outcome : result A
}.

Arguments Traced {A} calls outcome.
Arguments calls {A} t.
Arguments outcome {A} t.

#[global] Instance traced_ret : MRet traced := fun _ a => Traced [] (Ok a).
#[global] Instance traced_bind : MBind traced := fun _ _ f m =>
  match outcome m with
  | Ok a => let r := f a in Traced (calls m ++ calls r) (outcome r)
  | Raise e => Traced (calls m) (Raise e)
  end.

(** A step that calls nothing, and a call. *)
Definition quiet {A} (r : result A) : traced A := Traced [] r.
Definition call {A} (e : event) (r : result A) : traced A := Traced [e] r.

Definition is_batch_call (e : event) : bool :=
  match e with
  | CallBatcher _ | CallUnbatcher _ _ => true
  | CallModel _ => false
  end.

(** ** The runtime the handler runs in *)

(** What calling the model returns: one tensor, a tuple or a list. *)
Inductive model_output : Type :=
| OutTensor (t : tensor)
| OutTuple (ts : list tensor)
| OutList (ts : list tensor).

(** The calls the handler makes into the host server, the interpreter and
    the tensor runtime.  A network module is a value of [nn_module]; calling
    it is [forward], a function of the module and its arguments.  The
    thread settings and the inference mode live in [torch_state]. *)
Class Runtime : Type := {
  (** [pb_utils.get_model_dir()] and [os.path.exists] *)
  get_model_dir : string;
  os_path_exists : string -> bool;
  (** [str] of a list of strings and of an integer, [int] of a string *)
  py_str : list string -> string;
  str_int : Z -> string;
  py_int : string -> result Z;
  json_loads : string -> result json;
  (** [_import_module_from_path(module_name, file_path)] *)
  _import_module_from_path : string -> string -> result py_module;
  nn_module : Type;
  state_dict : Type;
  torch_state : Type;
  (** [getattr(torch, name)(n)] for a setter, [getattr(torch, name)()] for
      a getter *)
  torch_setter : string -> Z -> torch_state -> result torch_state;
  torch_getter : string -> torch_state -> Z;
  inference_mode_enter : torch_state -> torch_state;
  inference_mode_exit : torch_state -> torch_state;
  (** whether [torch.device] accepts a name, whether objects can be moved
      to a device, whether [torch.compile] accepts the options *)
  device_ok : string -> bool;
  device_available : torch_device -> bool;
  compile_options_ok : json -> bool;
  (** [torch.compile(module, **params)], [torch.jit.load(path)], calling a
      class without arguments, [torch.load(path, map_location=device)],
      [module.load_state_dict(state)], [module.to(device)],
      [module.eval()] and the call of a module on its input tensors *)
  compile_module : nn_module -> json -> result nn_module;
  jit_load : string -> result nn_module;
  instantiate : py_object -> result nn_module;
  torch_load : string -> option torch_device -> result state_dict;
  load_state_dict : nn_module -> state_dict -> result nn_module;
  module_to : nn_module -> torch_device -> result nn_module;
  module_eval : nn_module -> nn_module;
  forward : nn_module -> list tensor -> result model_output
}.

(** Lower case of an ASCII string, [s.lower()]. *)
Definition ascii_lower (c : ascii) : ascii :=
  let n := nat_of_ascii c in
  if ((65 <=? n) && (n <=? 90))%nat then ascii_of_nat (n + 32) else c.

Fixpoint lower (s : string) : string :=
  match s with
  | EmptyString => EmptyString
  | String c rest => String (ascii_lower c) (lower rest)
  end.

(** Code that reads and writes a state and may raise. *)
Definition action (S A : Type) : Type := S -> S * result A.

#[global] Instance action_ret {S} : MRet (action S) := fun _ a s => (s, Ok a).
#[global] Instance action_bind {S} : MBind (action S) := fun _ _ f m s =>
  match m s with
  | (s', Ok a) => f a s'
  | (s', Raise e) => (s', Raise e)
  end.

Definition lift {S A} (r : result A) : action S A := fun s => (s, r).

Section Handler.
Context `{Runtime}.

(** *** Parallelism settings *)

Definition torch_set (setter : string) (n : Z) : action torch_state unit :=
  fun s =>
    match torch_setter setter n s with
    | Ok s' => (s', Ok ())
    | Raise e => (s, Raise e)
    end.

Definition torch_get (getter : string) : action torch_state Z :=
  fun s => (s, Ok (torch_getter getter s)).

Fixpoint set_parallelism (config : model_config) (settings : list string)
    (log_msg : string) : action torch_state string :=
  match settings with
  | [] => mret log_msg
  | setting :: rest =>
      let torch_setting := lower setting in
      (match parameters config !! setting with
       | Some p =>
           let val := string_value p in
           n ← lift (py_int val);
           torch_set ("set_" +:+ torch_setting) n
       | None => mret ()
       end);;
      v ← torch_get ("get_" +:+ torch_setting);
      let val := str_int v in
      set_parallelism config rest (log_msg +:+ setting +:+ " = " +:+ val +:+ "; ")
  end.

Definition _set_torch_parallelism (config : model_config)
  : action torch_state string :=
  let parallelism_settings := ["NUM_THREADS"; "NUM_INTEROP_THREADS"] in
  set_parallelism config parallelism_settings "".

(** *** The instance *)

(** A value an attribute of the instance holds. *)
Inductive py_value : Type :=
| VStr (s : string)
| VBool (b : bool)
| VConfig (c : model_config)
| VIo (io : list io_descriptor)
| VDevice (d : option torch_device)
| VInferMode
| VBatcher (f : list (list tensor) -> result (list (list tensor) * list nat))
| VUnbatcher (f : list tensor -> list nat -> result (list (list tensor)))
| VModule (m : nn_module)
| VPyModule (m : py_module)
| VPyObject (o : py_object).

(** The instance [self] is its attribute dictionary; the world is the
    instance and the runtime's global state. *)
Record world : Type := {
  self : gmap string py_value;
  torch : torch_state
}.

(** [self.attr = v] *)
Definition setattr (attr : string) (v : py_value) : action world unit :=
  fun w => ({| self := <[attr := v]> (self w); torch := torch w |}, Ok ()).

(** [self.attr] *)
Definition getattr (self : gmap string py_value) (attr : string)
  : result py_value :=
  match self !! attr with
  | Some v => Ok v
  | None => Raise AttributeError
  end.

Definition on_torch {A} (m : action torch_state A) : action world A :=
  fun w =>
    let (t, r) := m (torch w) in
    ({| self := self w; torch := t |}, r).

Definition as_bool (v : py_value) : result bool :=
  match v with VBool b => Ok b | _ => Raise TypeError end.
Definition as_io (v : py_value) : result (list io_descriptor) :=
  match v with VIo io => Ok io | _ => Raise TypeError end.
Definition as_device (v : py_value) : result (option torch_device) :=
  match v with VDevice d => Ok d | _ => Raise TypeError end.
Definition as_module (v : py_value) : result nn_module :=
  match v with VModule m => Ok m | _ => Raise TypeError end.
Definition as_batcher (v : py_value)
  : result (list (list tensor) -> result (list (list tensor) * list nat)) :=
  match v with VBatcher f => Ok f | _ => Raise TypeError end.
Definition as_unbatcher (v : py_value)
  : result (list tensor -> list nat -> result (list (list tensor))) :=
  match v with VUnbatcher f => Ok f | _ => Raise TypeError end.

(** [torch.compile(f, **params)] on a function: the options are checked
    and the function keeps its meaning. *)
Definition torch_compile {F} (f : F) (params : json) : result F :=
  if compile_options_ok params then Ok f else Raise TypeError.

(** [_torch_object_to_device] on a module, which is moved in place. *)
Definition module_to_device (m : nn_module) (device : option torch_device)
  : result nn_module :=
  match device with
  | Some d => module_to m d
  | None => Ok m
  end.

(** *** [initialize] *)

Record initialize_args : Type := {
  model_config_arg : model_config;
  model_instance_kind : string;
  model_instance_device_id : string;
  model_name : string
}.

(** The loading path of a TorchScript artifact. *)
Definition load_torchscript (model_path : string)
    (device : option torch_device) : action world unit :=
  model ← lift (jit_load model_path);
  setattr "_model" (VModule model);;
  model ← lift (module_to_device model device);
  setattr "_model" (VModule model);;
  setattr "_model" (VModule (module_eval model)).

(** The loading path of a class-based model. *)
Definition load_py_class (model_name model_path : string)
    (device : option torch_device) (params : json) : action world unit :=
  model_module ← lift (_import_module_from_path model_name model_path);
  setattr "_model_module" (VPyModule model_module);;
  model_class ← lift (_get_model_class_from_module model_module);
  setattr "_model_class" (VPyObject model_class);;
  raw_model ← lift (instantiate model_class);
  setattr "_raw_model" (VModule raw_model);;
  let data_path := _get_model_data_path os_path_exists model_path in
  raw_model ←
    (if negb (String.eqb data_path "") then
       state ← lift (torch_load data_path device);
       raw_model ← lift (load_state_dict raw_model state);
       setattr "_raw_model" (VModule raw_model);;
       mret raw_model
     else mret raw_model);
  raw_model ← lift (module_to_device raw_model device);
  setattr "_raw_model" (VModule raw_model);;
  let raw_model := module_eval raw_model in
  setattr "_raw_model" (VModule raw_model);;
  model ← lift (compile_module raw_model params);
  setattr "_model" (VModule model).

(** The steps of [initialize] up to the point where the model is looked
    for; they yield the device and the compile parameters. *)
Definition configure (args : initialize_args)
  : action world (option torch_device * json) :=
  setattr "_model_name" (VStr (model_name args));;
  let config := model_config_arg args in
  setattr "_model_config" (VConfig config);;
  let support_batching := (0 <? max_batch_size config)%Z in
  setattr "_support_batching" (VBool support_batching);;
  setattr "_inputs" (VIo (_parse_io_config (input config)));;
  setattr "_outputs" (VIo (_parse_io_config (output config)));;
  setting_msg ← on_torch (_set_torch_parallelism config);
  setattr "_infer_mode" VInferMode;;
  on_torch (fun t => (inference_mode_enter t, Ok ()));;
  device ← lift (_get_device device_ok
                   (model_instance_kind args) (model_instance_device_id args));
  setattr "_device" (VDevice device);;
  params ← lift (_get_torch_compile_params json_loads config);
  (if support_batching then
     batcher ← lift (torch_compile _batch_torch_tensors params);
     setattr "_batcher" (VBatcher batcher);;
     unbatcher ← lift (torch_compile _unbatch_torch_tensors params);
     setattr "_unbatcher" (VUnbatcher unbatcher)
   else mret ());;
  mret (device, params).

Definition initialize (args : initialize_args) : action world unit :=
  configured ← configure args;
  let device := configured.1 in
  let params := configured.2 in
  model_path ← lift (_get_model_path get_model_dir os_path_exists py_str
                       (model_config_arg args));
  if negb (_is_py_class_model model_path) then
    load_torchscript model_path device
  else
    load_py_class (model_name args) model_path device params.

(** An action that leaves attribute [k] of the instance as it found it,
    and one after which [k] holds [v]. *)
Definition preserves {A} (k : string) (m : action world A) : Prop :=
  forall w, self (m w).1 !! k = self w !! k.

Definition assigns {A} (k : string) (v : py_value) (m : action world A) : Prop :=
  forall w, self (m w).1 !! k = Some v.

(** *** [execute] *)

(** The tensors of one request, one per configured input. *)
Definition request_tensors_of (self : gmap string py_value)
    (request : inference_request) : result (list tensor) :=
  inputs ← getattr self "_inputs" ≫= as_io;
  mapM (fun io =>
          match get_input_tensor_by_name request (name io) with
          | Some tensor =>
              device ← getattr self "_device" ≫= as_device;
              _torch_object_to_device device_available (pb_value tensor) device
          | None => Raise AttributeError
          end) inputs.

Definition normalize_output (output_tensors : model_output) : list tensor :=
  match output_tensors with
  | OutTensor t => [t]
  | OutTuple ts | OutList ts => ts
  end.

(** One call of the model. *)
Definition call_model (self : gmap string py_value)
    (input_tensors : list tensor) : traced (list tensor) :=
  model ← quiet (getattr self "_model" ≫= as_module);
  output_tensors ← call (CallModel input_tensors) (forward model input_tensors);
  mret (normalize_output output_tensors).

(** The response built from the output tensors of one request. *)
Definition response_of (self : gmap string py_value)
    (response_tensors : list tensor) : result inference_response :=
  outputs ← getattr self "_outputs" ≫= as_io;
  output_tensors ←
    mapM (fun i =>
            io ← getitem outputs i;
            tensor ← getitem response_tensors i;
            mret {| pb_name := name io; pb_value := tensor |})
         (seq 0 (length outputs));
  mret {| output_tensors := output_tensors |}.

Definition execute (self : gmap string py_value)
    (requests : list inference_request) : traced (list inference_response) :=
  requests_tensors ← quiet (mapM (request_tensors_of self) requests);
  support_batching ← quiet (getattr self "_support_batching" ≫= as_bool);
  batched ←
    (if (support_batching : bool) then
       batcher ← quiet (getattr self "_batcher" ≫= as_batcher);
       merged ← call (CallBatcher requests_tensors) (batcher requests_tensors);
       mret (merged.1, Some merged.2)
     else mret (requests_tensors, None));
  let requests_tensors := batched.1 in
  let sections : option (list nat) := batched.2 in
  responses_tensors ← mapM (call_model self) requests_tensors;
  support_batching ← quiet (getattr self "_support_batching" ≫= as_bool);
  responses_tensors ←
    (if (support_batching : bool) then
       unbatcher ← quiet (getattr self "_unbatcher" ≫= as_unbatcher);
       response_tensors ← quiet (getitem responses_tensors 0);
       sections ← quiet (match sections with
                         | Some sections => Ok sections
                         | None => Raise TypeError
                         end);
       call (CallUnbatcher response_tensors sections)
            (unbatcher response_tensors sections)
     else mret responses_tensors);
  quiet (mapM (response_of self) responses_tensors).

(** The way of one request through [execute] when nothing is batched:
    its tensors are taken, the model is called on them and the response is
    built from what the model returns. *)
Definition serve (self : gmap string py_value) (request : inference_request)
  : result inference_response :=
  input_tensors ← request_tensors_of self request;
  output_tensors ← outcome (call_model self input_tensors);
  response_of self output_tensors.

(** *** [finalize] *)

Definition finalize : action world unit :=
  fun w =>
    match getattr (self w) "_infer_mode" with
    | Ok _ => on_torch (fun t => (inference_mode_exit t, Ok ())) w
    | Raise e => (w, Raise e)
    end.
End Handler.

(** ** Statements about actions on the instance *)

Section ActionStatements.
Context `{Runtime}.

(** An action after whose success attribute [k] holds a value with
    property [P]; one that leaves [k] as it found it whenever it raises;
    and one that leaves the runtime's global state as it found it. *)
Definition ensures {A} (k : string) (P : py_value -> Prop)
    (m : action world A) : Prop :=
  forall w a, (m w).2 = Ok a -> exists v, self (m w).1 !! k = Some v /\ P v.

Definition keeps_on_failure {A} (k : string) (m : action world A) : Prop :=
  forall w e, (m w).2 = Raise e -> self (m w).1 !! k = self w !! k.

Definition keeps_torch {A} (m : action world A) : Prop :=
  forall w, torch (m w).1 = torch w.
End ActionStatements.

(** ** A small runtime and some inputs

    A runtime whose only artifact is the TorchScript file [model.pt] of
    the model directory and whose model returns its arguments, one output
    per input; two configurations of one input and one output, with and
    without batching; and requests carrying one batch of examples each. *)

Definition dquote : string := String (ascii_of_nat 34) EmptyString.

(** The text [{"model": 1}] and the text [{"fullgraph": true}]. *)
Definition json_model_text : string :=
  "{" +:+ dquote +:+ "model" +:+ dquote +:+ ": 1}".
Definition json_fullgraph_text : string :=
  "{" +:+ dquote +:+ "fullgraph" +:+ dquote +:+ ": true}".

Definition example_json_loads (text : string) : result json :=
  if String.eqb text json_model_text then Ok (JObject [("model", JInt 1)])
  else if String.eqb text json_fullgraph_text
       then Ok (JObject [("fullgraph", JBool true)])
  else Raise JSONDecodeError.

Definition example_model_dir : string := "/models/net/1".

(** The runtime over a file system given by the paths that exist. *)
Definition example_runtime_on (path_exists : string -> bool) : Runtime := {|
  get_model_dir := example_model_dir;
  os_path_exists := path_exists;
  py_str := fun filenames => String.concat ", " filenames;
  str_int := fun _ => "1";
  py_int := fun _ => Ok 1%Z;
  json_loads := example_json_loads;
  _import_module_from_path := fun _ _ => Ok [];
  nn_module := unit;
  state_dict := unit;
  torch_state := unit;
  torch_setter := fun _ _ s => Ok s;
  torch_getter := fun _ _ => 1%Z;
  inference_mode_enter := fun s => s;
  inference_mode_exit := fun s => s;
  device_ok := fun _ => true;
  device_available := fun _ => true;
  compile_options_ok := fun _ => true;
  compile_module := fun m _ => Ok m;
  jit_load := fun _ => Ok ();
  instantiate := fun _ => Ok ();
  torch_load := fun _ _ => Ok ();
  load_state_dict := fun m _ => Ok m;
  module_to := fun m _ => Ok m;
  module_eval := fun m => m;
  forward := fun _ input_tensors => Ok (OutTuple input_tensors)
|}.

Definition example_runtime : Runtime :=
  example_runtime_on (fun p => String.eqb p "/models/net/1/model.pt").

(** The same runtime with an empty model directory. *)
Definition empty_dir_runtime : Runtime := example_runtime_on (fun _ => false).

Definition example_config (batch_size : Z) : model_config := {|
  max_batch_size := batch_size;
  input := [{| name := "INPUT0" |}];
  output := [{| name := "OUTPUT0" |}];
  default_model_filename := "";
  parameters := ∅
|}.

(** A configuration whose only parameter is the compile options. *)
Definition compile_params_config (text : string) : model_config := {|
  max_batch_size := 0;
  input := [];
  output := [];
  default_model_filename := "";
  parameters := {[ "TORCH_COMPILE_OPTIONAL_PARAMETERS" := {| string_value := text |} ]}
|}.

Definition example_args (batch_size : Z) : @initialize_args := {|
  model_config_arg := example_config batch_size;
  model_instance_kind := "CPU";
  model_instance_device_id := "0";
  model_name := "net"
|}.

Definition fresh_world (rt : Runtime) (t : @torch_state rt) : @world rt :=
  {| self := ∅; torch := t |}.

(** The instance after [initialize], with batching (a maximum batch size
    of 8) and without (0). *)
Definition batching_instance : gmap string (@py_value example_runtime) :=
  self (initialize (example_args 8) (fresh_world example_runtime ())).1.
Definition plain_instance : gmap string (@py_value example_runtime) :=
  self (initialize (example_args 0) (fresh_world example_runtime ())).1.

(** A batch of examples of one feature each, on the CPU: a tensor of
    shape [[n; 1]] for [n] examples. *)
Definition examples (features : list Z) : tensor :=
  {| tensor_device := Device "cpu";
     shape := [length features; 1];
     data := features |}.

Definition example_request (elements : list Z) : inference_request :=
  {| request_inputs := [{| pb_name := "INPUT0"; pb_value := examples elements |}] |}.

Definition example_response (elements : list Z) : inference_response :=
  {| output_tensors := [{| pb_name := "OUTPUT0"; pb_value := examples elements |}] |}.

(** A configuration that sets the thread count. *)
Definition threads_config (text : string) : model_config := {|
  max_batch_size := 0;
  input := [];
  output := [];
  default_model_filename := "";
  parameters := {[ "NUM_THREADS" := {| string_value := text |} ]}
|}.

(** A model directory holding [model.py] alone, a module without
    attributes behind it; and a runtime that finds the TorchScript file
    but cannot move a module to a device. *)
Definition class_dir_runtime : Runtime :=
  example_runtime_on (fun p => String.eqb p "/models/net/1/model.py").

Definition stuck_module_runtime : Runtime := {|
  get_model_dir := example_model_dir;
  os_path_exists := fun p => String.eqb p "/models/net/1/model.pt";
  py_str := fun filenames => String.concat ", " filenames;
  str_int := fun _ => "1";
  py_int := fun _ => Ok 1%Z;
  json_loads := example_json_loads;
  _import_module_from_path := fun _ _ => Ok [];
  nn_module := unit;
  state_dict := unit;
  torch_state := unit;
  torch_setter := fun _ _ s => Ok s;
  torch_getter := fun _ _ => 1%Z;
  inference_mode_enter := fun s => s;
  inference_mode_exit := fun s => s;
  device_ok := fun _ => true;
  device_available := fun _ => true;
  compile_options_ok := fun _ => true;
  compile_module := fun m _ => Ok m;
  jit_load := fun _ => Ok ();
  instantiate := fun _ => Ok ();
  torch_load := fun _ _ => Ok ();
  load_state_dict := fun m _ => Ok m;
  module_to := fun _ _ => Raise RuntimeError;
  module_eval := fun m => m;
  forward := fun _ input_tensors => Ok (OutTuple input_tensors)
|}.

(** * Properties *)

(** ** Model locator *)

Section LocatorFacts.
Variable get_model_dir : string.
Variable os_path_exists : string -> bool.
Variable py_str : list string -> string.

#[local] Abbreviation path_of := (os_path_join get_model_dir).
#[local] Abbreviation missing :=
  (fun filename => os_path_exists (path_of filename) = false).

Lemma first_existing_none filenames :
  first_existing get_model_dir os_path_exists filenames = None <->
  Forall missing filenames.
Proof.
  induction filenames as [|f fs IH]; simpl.
  - split; [constructor | reflexivity].
  - destruct (os_path_exists (path_of f)) eqn:Hf.
    + split; [discriminate | intros Hall].
      inversion Hall; subst. congruence.
    + rewrite IH. split; [by constructor | by inversion 1].
Qed.

Lemma first_existing_skip before filenames :
  Forall missing before ->
  first_existing get_model_dir os_path_exists (before ++ filenames) =
  first_existing get_model_dir os_path_exists filenames.
Proof.
  induction 1 as [|f fs Hf _ IH]; simpl; [reflexivity|].
  by rewrite Hf.
Qed.

Lemma first_existing_some filenames model_path :
  first_existing get_model_dir os_path_exists filenames = Some model_path ->
  exists before filename after,
    filenames = before ++ filename :: after /\
    Forall missing before /\
    model_path = path_of filename /\
    os_path_exists model_path = true.
Proof.
  induction filenames as [|f fs IH]; simpl; [discriminate|].
  destruct (os_path_exists (path_of f)) eqn:Hf.
  - intros [= <-]. by exists [], f, fs.
  - intros (before & filename & after & -> & Hall & -> & Hex)%IH.
    exists (f :: before), filename, after. repeat split; auto.
Qed.



Lemma candidate_filenames_order config :
  candidate_filenames config =
  (if String.eqb (default_model_filename config) ""
   then [] else [default_model_filename config])
  ++ ["model.py"; "model.pt"; "model.pth"].
Proof.
  unfold candidate_filenames, truthy.
  by destruct (String.eqb (default_model_filename config) "").
Qed.
End LocatorFacts.

(** C5. The locator tries the configured default filename first when it is
    not empty, then [model.py], [model.pt] and [model.pth], and returns
    the path of the first candidate that exists: a candidate all of whose
    predecessors are missing and that exists itself is the one returned.
    In particular, when the file of the configured name and [model.py]
    both exist, the path of the configured name is returned. *)
Theorem locate_model_precedence
    (get_model_dir : string) (os_path_exists : string -> bool)
    (py_str : list string -> string) (config : model_config) :
  let path_of := os_path_join get_model_dir in
  let locate := _get_model_path get_model_dir os_path_exists py_str in
  let candidates :=
    (if String.eqb (default_model_filename config) ""
     then [] else [default_model_filename config])
    ++ ["model.py"; "model.pt"; "model.pth"] in
  candidate_filenames config = candidates /\
  (forall before filename after,
      candidates = before ++ filename :: after ->
      Forall (fun f => os_path_exists (path_of f) = false) before ->
      os_path_exists (path_of filename) = true ->
      locate config = Ok (path_of filename)) /\
  (forall model_path,
      locate config = Ok model_path ->
      exists before filename after,
        candidates = before ++ filename :: after /\
        Forall (fun f => os_path_exists (path_of f) = false) before /\
        model_path = path_of filename /\
        os_path_exists model_path = true) /\
  (default_model_filename config <> "" ->
   os_path_exists (path_of (default_model_filename config)) = true ->
   os_path_exists (path_of "model.py") = true ->
   locate config = Ok (path_of (default_model_filename config))).
Proof.
  intros path_of locate candidates.
  pose proof (candidate_filenames_order config) as Hcand.
  fold candidates in Hcand.
  assert (Hfound : forall before filename after,
             candidates = before ++ filename :: after ->
             Forall (fun f => os_path_exists (path_of f) = false) before ->
             os_path_exists (path_of filename) = true ->
             locate config = Ok (path_of filename)).
  { intros before filename after Hsplit Hbefore Hex.
    unfold locate, _get_model_path. rewrite Hcand, Hsplit.
    rewrite first_existing_skip by exact Hbefore.
    simpl. fold path_of. by rewrite Hex. }
  split; [exact Hcand|]. split; [exact Hfound|]. split.
  - intros model_path. unfold locate, _get_model_path. rewrite Hcand.
    destruct (first_existing _ _ candidates) eqn:Hfirst; [|discriminate].
    intros [= <-]. by apply first_existing_some.
  - intros Hname Hex _.
    apply (Hfound [] _ ["model.py"; "model.pt"; "model.pth"]); auto.
    unfold candidates.
    destruct (String.eqb_spec (default_model_filename config) ""); done.
Qed.

(** At a model directory holding [net.pt] and [model.py], with [net.pt]
    the configured name. *)
Lemma locate_model_precedence_witness :
  _get_model_path "/models/net/1"
    (fun p => String.eqb p "/models/net/1/net.pt"
              || String.eqb p "/models/net/1/model.py")
    (String.concat ", ")
    {| max_batch_size := 0; input := []; output := [];
       default_model_filename := "net.pt"; parameters := ∅ |}
  = Ok "/models/net/1/net.pt".
Proof.
  refine (proj2 (proj2 (proj2 (locate_model_precedence _ _ _ _))) _ _ _);
    simpl; [discriminate | reflexivity | reflexivity].
Defined.

(** ** Device resolution *)

Lemma device_name_empty kind ordinal :
  _get_device_name kind ordinal = "" <-> kind <> "GPU" /\ kind <> "CPU".
Proof.
  unfold _get_device_name.
  destruct (String.eqb_spec kind "GPU") as [->|Hgpu].
  - split; [discriminate | intros [[] _]; reflexivity].
  - destruct (String.eqb_spec kind "CPU") as [->|Hcpu].
    + split; [discriminate | intros [_ []]; reflexivity].
    + split; auto.
Qed.

(** C7. Device resolution is a function of the kind and the ordinal: kind
    [GPU] with ordinal [d] resolves to the name [cuda:d], kind [CPU] to
    [cpu] whatever the ordinal, and the name is empty exactly for the
    other kinds, for which no device is made (the result is [None]) and a
    tensor or a module sent to that device stays as it is; for [GPU] and
    [CPU] the device is the one the runtime makes from the name. *)
Theorem device_resolution `{Runtime} (kind ordinal : string) :
  _get_device_name "GPU" ordinal = "cuda:" +:+ ordinal /\
  _get_device_name "CPU" ordinal = "cpu" /\
  (_get_device_name kind ordinal = "" <-> kind <> "GPU" /\ kind <> "CPU") /\
  _get_device device_ok "GPU" ordinal
    = Some <$> make_device device_ok ("cuda:" +:+ ordinal) /\
  _get_device device_ok "CPU" ordinal = Some <$> make_device device_ok "cpu" /\
  (kind <> "GPU" -> kind <> "CPU" ->
   _get_device device_ok kind ordinal = Ok None /\
   (forall t, _torch_object_to_device device_available t None = Ok t) /\
   (forall m, module_to_device m None = Ok m)).
Proof.
  split; [reflexivity|]. split; [reflexivity|].
  split; [apply device_name_empty|].
  split; [reflexivity|]. split; [reflexivity|].
  intros Hgpu Hcpu. split; [|split; reflexivity].
  unfold _get_device.
  by rewrite (proj2 (device_name_empty kind ordinal)).
Qed.

Lemma device_resolution_witness :
  _get_device_name "GPU" "0" = "cuda:0" /\
  _get_device (@device_ok example_runtime) "UNKNOWN" "" = Ok None.
Proof.
  split; [reflexivity|].
  refine (proj1 (proj2 (proj2 (proj2 (proj2 (proj2
            (@device_resolution example_runtime "UNKNOWN" ""))))) _ _));
    discriminate.
Defined.

(** ** Compile parameters *)

(** C8. The compile parameters are read from the optional parameter
    [TORCH_COMPILE_OPTIONAL_PARAMETERS]: without it the result is the empty
    mapping; when its text parses to a mapping, the read fails with the
    reserved-key error exactly when the mapping has the key [model], and
    any other mapping is returned as parsed. *)
Theorem compile_params_reserved_key
    (json_loads : string -> result json) (config : model_config) :
  let read := _get_torch_compile_params json_loads config in
  let given := parameters config !! "TORCH_COMPILE_OPTIONAL_PARAMETERS" in
  (given = None -> read = Ok (JObject [])) /\
  (forall p members,
      given = Some p ->
      json_loads (string_value p) = Ok (JObject members) ->
      (read = Raise model_not_optional <-> "model" ∈ members.*1) /\
      ("model" ∉ members.*1 -> read = Ok (JObject members))).
Proof.
  intros read given. unfold read, _get_torch_compile_params. fold given.
  split.
  - by intros ->.
  - intros p members -> Hparse. rewrite Hparse. simpl.
    unfold mbind, result_bind. simpl.
    destruct (bool_decide_reflect ("model" ∈ members.*1)) as [Hin|Hout].
    + split; [tauto | contradiction].
    + split; [split; [discriminate | contradiction] | reflexivity].
Qed.

(** The mapping with [fullgraph] passes; the one with [model] is
    rejected; without the parameter the mapping is empty. *)
Lemma compile_params_reserved_key_witness :
  _get_torch_compile_params example_json_loads
    (compile_params_config json_fullgraph_text)
  = Ok (JObject [("fullgraph", JBool true)]) /\
  _get_torch_compile_params example_json_loads
    (compile_params_config json_model_text)
  = Raise model_not_optional /\
  _get_torch_compile_params example_json_loads (example_config 0)
  = Ok (JObject []).
Proof.
  split; [|split].
  - refine (proj2 (proj2 (compile_params_reserved_key example_json_loads
              (compile_params_config json_fullgraph_text))
              {| string_value := json_fullgraph_text |}
              [("fullgraph", JBool true)] _ _) _).
    + reflexivity.
    + reflexivity.
    + simpl. intros Hin. apply list_elem_of_In in Hin. simpl in Hin.
      destruct Hin as [Heq|[]]. discriminate Heq.
  - refine (proj2 (proj1 (proj2 (compile_params_reserved_key example_json_loads
              (compile_params_config json_model_text))
              {| string_value := json_model_text |}
              [("model", JInt 1)] _ _)) _).
    + reflexivity.
    + reflexivity.
    + simpl. apply list_elem_of_In. simpl. by left.
  - refine (proj1 (compile_params_reserved_key example_json_loads
              (example_config 0)) _).
    reflexivity.
Defined.

(** ** Subclass scan *)

Lemma scan_raises_only_no_model_class module e :
  _get_model_class_from_module module = Raise e -> e = no_model_class.
Proof.
  induction module as [|[name attr] names IH]; simpl.
  - by intros [= <-].
  - destruct attr as [c|repr]; simpl; [destruct (derives_from_nn_Module c)|];
      auto; discriminate.
Qed.

Lemma issubclass_cases attr :
  issubclass_nn_Module attr = Ok true \/ issubclass_nn_Module attr <> Ok true.
Proof.
  destruct attr as [c|repr]; simpl; [destruct (derives_from_nn_Module c)|];
    (by left) || (right; discriminate).
Qed.

Lemma scan_skips name attr names :
  issubclass_nn_Module attr <> Ok true ->
  _get_model_class_from_module ((name, attr) :: names)
  = _get_model_class_from_module names.
Proof.
  simpl. destruct attr as [c|repr]; simpl;
    [destruct (derives_from_nn_Module c)|]; congruence.
Qed.

(** C9. The subclass scan fails with the no-class error exactly when no
    attribute of the module is a class deriving from the network-module
    base, and it never fails in another way; an attribute that is not a
    class (the subclass check raises) or a class that does not derive
    from the base is skipped and the scan goes on; when the scan returns,
    what it returns is an attribute of the module that is a class deriving
    from the base. *)
Theorem subclass_scan (module : py_module) :
  let qualifies attr := issubclass_nn_Module attr = Ok true in
  (_get_model_class_from_module module = Raise no_model_class <->
   forall name attr, (name, attr) ∈ module -> ~ qualifies attr) /\
  (forall e, _get_model_class_from_module module = Raise e -> e = no_model_class) /\
  (forall name attr names,
      ~ qualifies attr ->
      _get_model_class_from_module ((name, attr) :: names)
      = _get_model_class_from_module names) /\
  (forall attr,
      _get_model_class_from_module module = Ok attr ->
      qualifies attr /\ exists name, (name, attr) ∈ module).
Proof.
  intros qualifies. split; [|split; [|split]].
  - induction module as [|[name attr] names IH].
    + simpl. split; [intros _ ? ? Hin; by apply elem_of_nil in Hin | done].
    + destruct (issubclass_cases attr) as [Hq|Hq].
      * simpl. rewrite Hq. split; [discriminate|].
        intros Hnone. exfalso. apply (Hnone name attr); [left | exact Hq].
      * rewrite scan_skips by exact Hq. rewrite IH. split.
        -- intros Hnone n a [[= -> ->]|Hin]%elem_of_cons; eauto.
        -- intros Hnone n a Hin. apply (Hnone n a). by right.
  - apply scan_raises_only_no_model_class.
  - intros name attr names. apply scan_skips.
  - induction module as [|[name attr] names IH]; [discriminate|].
    intros found.
    destruct (issubclass_cases attr) as [Hq|Hq].
    + simpl. rewrite Hq. intros [= <-]. split; [exact Hq|].
      exists name. left.
    + rewrite scan_skips by exact Hq.
      intros [Hfound [n Hin]]%IH. split; [exact Hfound|].
      exists n. by right.
Qed.

(** A module exporting a function, a class that is not a network module
    and a network-module class: the scan returns the last. *)
Lemma subclass_scan_witness :
  let net := PyClass {| class_name := "Net"; derives_from_nn_Module := true |} in
  _get_model_class_from_module
    [("Helper", PyClass {| class_name := "Helper"; derives_from_nn_Module := false |});
     ("load", PyOther "function");
     ("Net", net)]
  = Ok net.
Proof.
  intros net.
  destruct (subclass_scan [("Net", net)]) as (_ & _ & Hskip & Hfound).
  cbv zeta in Hskip.
  rewrite Hskip by discriminate. rewrite Hskip by discriminate.
  reflexivity.
Defined.

(** ** Lists of results *)

Section MonadFacts.
Context {A B : Type}.

Lemma mapM_result_nil (f : A -> result B) : mapM f [] = Ok [].
Proof. reflexivity. Qed.

Lemma mapM_result_cons (f : A -> result B) x l :
  mapM f (x :: l) = (y ← f x; k ← mapM f l; mret (y :: k)).
Proof. reflexivity. Qed.

Lemma mapM_Ok_Forall2 (f : A -> result B) l k :
  mapM f l = Ok k <-> Forall2 (fun x y => f x = Ok y) l k.
Proof.
  revert k. induction l as [|x l IH]; intros k.
  - rewrite mapM_result_nil. split.
    + intros [= <-]. constructor.
    + by inversion 1.
  - rewrite mapM_result_cons. split.
    + destruct (f x) as [y|e] eqn:Hx; [|discriminate]. simpl.
      destruct (mapM f l) as [k'|e] eqn:Hl; [|discriminate]. simpl.
      intros [= <-]. constructor; [exact Hx | by apply IH].
    + inversion 1 as [|? y ? k' Hx Hl]; subst.
      rewrite Hx. simpl. apply IH in Hl. by rewrite Hl.
Qed.
End MonadFacts.

Lemma mapM_compose {A B C} (f : A -> result B) (g : B -> result C) l k :
  (mapM f l ≫= mapM g) = Ok k <-> mapM (fun x => f x ≫= g) l = Ok k.
Proof.
  revert k. induction l as [|x l IH]; intros k.
  - reflexivity.
  - rewrite !mapM_result_cons.
    destruct (f x) as [y|e]; simpl; [|done].
    destruct (mapM f l) as [ys|e] eqn:Hl; simpl.
    + destruct (g y) as [z|e]; simpl; [|done].
      specialize (IH). simpl in IH.
      destruct (mapM g ys) as [zs|e] eqn:Hg; simpl.
      * destruct (mapM (fun x0 => f x0 ≫= g) l) as [zs'|e'] eqn:Hfg; simpl.
        -- pose proof (proj1 (IH zs) eq_refl) as [= ->]. done.
        -- pose proof (proj1 (IH zs) eq_refl). discriminate.
      * destruct (mapM (fun x0 => f x0 ≫= g) l) as [zs'|e'] eqn:Hfg; simpl.
        -- pose proof (proj2 (IH zs') eq_refl). discriminate.
        -- split; discriminate.
    + destruct (g y) as [z|e']; simpl; [|split; discriminate].
      destruct (mapM (fun x0 => f x0 ≫= g) l) as [zs'|e'] eqn:Hfg; simpl.
      * pose proof (proj2 (IH zs') eq_refl). discriminate.
      * split; discriminate.
Qed.

(** ** Batching and unbatching *)

Lemma getitem_Some {A} (l : list A) i x : l !! i = Some x -> getitem l i = Ok x.
Proof. unfold getitem. by intros ->. Qed.

Lemma batch_request_appends request_tensors batch_tensors :
  batch_request request_tensors (length batch_tensors) batch_tensors
  = Ok (batch_tensors ++ request_tensors).
Proof.
  revert batch_tensors.
  induction request_tensors as [|t ts IH]; intros batch_tensors; simpl.
  - by rewrite app_nil_r.
  - rewrite bool_decide_eq_false_2 by lia.
    replace (S (length batch_tensors)) with (length (batch_tensors ++ [t]))
      by (rewrite length_app; simpl; lia).
    rewrite IH. by rewrite <- app_assoc.
Qed.

Lemma batch_request_first request_tensors :
  batch_request request_tensors 0 [] = Ok request_tensors.
Proof. exact (batch_request_appends request_tensors []). Qed.

(** Once every slot of the request has a tensor in [batch_tensors], the
    inner loop leaves [batch_tensors] as it is: the joined tensor is
    dropped. *)
Lemma batch_request_keeps request_tensors j batch_tensors merged :
  j + length request_tensors <= length batch_tensors ->
  batch_request request_tensors j batch_tensors = Ok merged ->
  merged = batch_tensors.
Proof.
  revert j. induction request_tensors as [|t ts IH]; intros j Hlen; simpl.
  - by intros [= <-].
  - simpl in Hlen. rewrite bool_decide_eq_true_2 by lia.
    destruct (getitem batch_tensors j) as [tensor|e]; [|discriminate].
    simpl. destruct (torch_cat tensor t); [|discriminate].
    simpl. apply IH. lia.
Qed.

Lemma batch_requests_keep requests_tensors batch_tensors sections out :
  Forall (fun r => length r <= length batch_tensors) requests_tensors ->
  batch_requests requests_tensors batch_tensors sections = Ok out ->
  out.1 = batch_tensors /\
  length out.2 = length sections + length requests_tensors.
Proof.
  intros Hall. revert sections.
  induction Hall as [|r rs Hr _ IH]; intros sections; simpl.
  - intros [= <-]. simpl. split; [done | lia].
  - destruct (batch_request r 0 batch_tensors) as [merged|e] eqn:Hreq;
      [|discriminate].
    apply batch_request_keeps in Hreq as ->; [|simpl; lia]. simpl.
    destruct (getitem r 0) as [first|e]; [|discriminate]. simpl.
    destruct (getitem (size first) 0) as [n|e]; [|discriminate]. simpl.
    intros [-> Hlen]%IH. split; [done|].
    rewrite Hlen, length_app. simpl. lia.
Qed.

(** Whatever the later requests hold, the merged set [batch] returns is
    the tensor set of the first request, and there is one section per
    request. *)
Lemma batch_returns_first_request request_tensors others merged sections :
  Forall (fun r => length r <= length request_tensors) others ->
  _batch_torch_tensors (request_tensors :: others) = Ok (merged, sections) ->
  merged = [request_tensors] /\ length sections = S (length others).
Proof.
  intros Hall. unfold _batch_torch_tensors. simpl.
  rewrite batch_request_first. simpl.
  destruct (getitem request_tensors 0) as [first|e]; [|discriminate]. simpl.
  destruct (getitem (size first) 0) as [n|e]; [|discriminate]. simpl.
  destruct (batch_requests others request_tensors [n]) as [out|e] eqn:Hrest;
    [|discriminate].
  apply batch_requests_keep in Hrest as [Hfst Hlen]; [|exact Hall].
  simpl. intros [= <- <-]. rewrite Hfst. split; [done | simpl in Hlen; lia].
Qed.

Lemma split_whole t n inner :
  tensor_wf t -> shape t = n :: inner -> torch_split t [n] = Ok [t].
Proof.
  unfold tensor_wf, torch_split. intros Hwf Hshape. rewrite Hshape in *.
  simpl in Hwf. simpl. rewrite Nat.add_0_r.
  rewrite bool_decide_eq_true_2 by done. simpl.
  rewrite firstn_all2 by lia.
  destruct t as [d s l]. simpl in *. by subst.
Qed.

Lemma unbatch_single_section response_tensors n response :
  Forall (fun t => tensor_wf t /\ exists inner, shape t = n :: inner)
         response_tensors ->
  unbatch_slots response_tensors [n] [response]
  = Ok [response ++ response_tensors].
Proof.
  intros Hall. revert response.
  induction Hall as [|t ts [Hwf [inner Hshape]] _ IH]; intros response; simpl.
  - by rewrite app_nil_r.
  - rewrite (split_whole t n inner) by assumption. simpl.
    rewrite IH. by rewrite <- app_assoc.
Qed.

(** C10. For a call with one request whose tensor set is not empty and
    whose slot-0 tensor has an axis 0 of length [n], [batch] returns that
    tensor set, unchanged, as the single merged set, and the sections
    [[n]].  When moreover every tensor of the set holds as many elements
    as its shape says and has an axis 0 of the same length [n] (the
    precondition of [batch] on the slots of one request), unbatching the
    merged set with these sections gives back the one request's tensor
    set. *)
Theorem single_request_roundtrip
    (request_tensors : list tensor) (first : tensor) (n : nat)
    (inner : list nat) :
  request_tensors !! 0 = Some first ->
  shape first = n :: inner ->
  _batch_torch_tensors [request_tensors] = Ok ([request_tensors], [n]) /\
  (Forall (fun t => tensor_wf t /\ exists inner', shape t = n :: inner')
          request_tensors ->
   _unbatch_torch_tensors request_tensors [n] = Ok [request_tensors]).
Proof.
  intros Hfirst Hshape. split.
  - unfold _batch_torch_tensors. simpl.
    rewrite batch_request_first. simpl.
    rewrite (getitem_Some _ _ _ Hfirst). simpl.
    unfold size. rewrite Hshape. reflexivity.
  - intros Hall. unfold _unbatch_torch_tensors.
    destruct Hall as [|t ts [Hwf [inner' Hshape']] Hrest]; [discriminate|].
    simpl. rewrite (split_whole t n inner') by assumption. simpl.
    by rewrite unbatch_single_section.
Qed.

(** One request with a matrix of two rows and a batch of two examples. *)
Lemma single_request_roundtrip_witness :
  let matrix := {| tensor_device := Device "cpu"; shape := [2; 3];
                   data := [1; 2; 3; 4; 5; 6]%Z |} in
  let request_tensors := [matrix; examples [7; 8]%Z] in
  _batch_torch_tensors [request_tensors] = Ok ([request_tensors], [2]) /\
  _unbatch_torch_tensors request_tensors [2] = Ok [request_tensors].
Proof.
  intros matrix request_tensors.
  destruct (single_request_roundtrip request_tensors matrix 2 [3]
              eq_refl eq_refl) as [Hbatch Hunbatch].
  split; [exact Hbatch|]. apply Hunbatch.
  repeat constructor; by eexists.
Defined.

(** ** Batching as specified *)

Lemma numel_cons n inner : numel (n :: inner) = n * numel inner.
Proof. reflexivity. Qed.

Lemma fits_length slot n t : fits slot n t -> length (data t) = n * numel slot.2.
Proof. intros (Hwf & _ & Hshape). unfold tensor_wf in Hwf. by rewrite Hshape in Hwf. Qed.

Lemma torch_cat_fits slot n m a b :
  fits slot n a -> fits slot m b ->
  torch_cat a b = Ok {| tensor_device := slot.1;
                        shape := (n + m) :: slot.2;
                        data := data a ++ data b |}.
Proof.
  intros Ha Hb.
  pose proof (fits_length _ _ _ Ha) as Hla.
  pose proof (fits_length _ _ _ Hb) as Hlb.
  destruct Ha as (_ & Hda & Hsa), Hb as (_ & Hdb & Hsb).
  destruct a as [da sa la], b as [db sb lb], slot as [dev inner].
  simpl in *. subst. unfold torch_cat. simpl.
  rewrite bool_decide_eq_true_2 by done. simpl.
  destruct n as [|n], inner as [|k inner], m as [|m]; simpl in *;
    rewrite ?bool_decide_eq_true_2 by done;
    repeat match goal with
           | H : length ?l = 0 |- _ => apply nil_length_inv in H; subst l
           | H : length ?l = _ * 0 |- _ => rewrite Nat.mul_0_r in H
           end;
    rewrite ?app_nil_r, ?Nat.add_0_r; try reflexivity.
Qed.

Lemma cat_onto_fits slot n joined tensors lengths :
  fits slot n joined ->
  Forall2 (fun t m => fits slot m t) tensors lengths ->
  cat_onto joined tensors
  = Ok {| tensor_device := slot.1;
          shape := (n + sum_list lengths) :: slot.2;
          data := data joined ++ concat (data <$> tensors) |}.
Proof.
  intros Hjoined Hall. revert n joined Hjoined.
  induction Hall as [|t m ts ms Ht _ IH]; intros n joined Hjoined; simpl.
  - rewrite Nat.add_0_r, app_nil_r.
    destruct Hjoined as (_ & <- & <-). by destruct joined.
  - rewrite (torch_cat_fits slot n m) by assumption. simpl.
    rewrite (IH (n + m)).
    + simpl. by rewrite Nat.add_assoc, <- app_assoc.
    + pose proof (fits_length _ _ _ Hjoined). pose proof (fits_length _ _ _ Ht).
      split; [|done]. unfold tensor_wf. simpl.
      rewrite length_app. lia.
Qed.

Lemma split_pieces_fits slot tensors lengths :
  Forall2 (fun t m => fits slot m t) tensors lengths ->
  split_pieces slot.1 slot.2 lengths (concat (data <$> tensors)) = tensors.
Proof.
  destruct slot as [device inner].
  induction 1 as [|t m ts ms Ht _ IH]; simpl in *; [reflexivity|].
  pose proof (fits_length _ _ _ Ht) as Hlen. simpl in Hlen.
  rewrite take_app_length', drop_app_length' by done.
  f_equal; [|exact IH].
  destruct Ht as (_ & Hdevice & Hshape). simpl in *.
  rewrite <- Hdevice, <- Hshape. by destruct t.
Qed.

(** Splitting the join of the tensors of a slot by their lengths gives the
    tensors back. *)
Lemma split_cat_onto slot first rest n lengths :
  fits slot n first ->
  Forall2 (fun t m => fits slot m t) rest lengths ->
  exists joined,
    cat_onto first rest = Ok joined /\
    shape joined = sum_list (n :: lengths) :: slot.2 /\
    torch_split joined (n :: lengths) = Ok (first :: rest).
Proof.
  intros Hfirst Hrest. eexists. split; [by apply cat_onto_fits|].
  split; [reflexivity|].
  unfold torch_split. simpl. rewrite bool_decide_eq_true_2 by done.
  pose proof (fits_length _ _ _ Hfirst) as Hlen.
  simpl. rewrite take_app_length', drop_app_length' by done.
  rewrite (split_pieces_fits slot) by done.
  destruct Hfirst as (_ & Hdevice & Hshape).
  rewrite <- Hdevice, <- Hshape. by destruct first.
Qed.

Lemma unbatch_pieces_new pieces i rows :
  length rows = i ->
  unbatch_pieces pieces i rows = Ok (rows ++ ((fun t => [t]) <$> pieces)).
Proof.
  revert i rows. induction pieces as [|p ps IH]; intros i rows Hlen; simpl.
  - by rewrite app_nil_r.
  - rewrite bool_decide_eq_true_2 by lia.
    rewrite (getitem_Some _ _ [])
      by (subst i; apply list_lookup_middle; reflexivity).
    simpl. subst i. rewrite insert_app_r_alt by lia.
    rewrite Nat.sub_diag. simpl.
    rewrite IH by (rewrite length_app; simpl; lia).
    by rewrite <- app_assoc.
Qed.

Lemma unbatch_pieces_add pieces i rows :
  length rows = i + length pieces ->
  unbatch_pieces pieces i rows
  = Ok (take i rows ++ snoc_all (drop i rows) pieces).
Proof.
  revert i rows. induction pieces as [|p ps IH]; intros i rows Hlen; simpl in *.
  - unfold snoc_all. rewrite zip_with_nil_r, app_nil_r.
    by rewrite take_ge by lia.
  - rewrite bool_decide_eq_false_2 by lia.
    destruct (lookup_lt_is_Some_2 rows i ltac:(lia)) as [row Hrow].
    rewrite (getitem_Some _ _ _ Hrow). simpl.
    rewrite IH by (rewrite length_insert; lia).
    rewrite take_insert_lt by lia.
    rewrite (take_S_r _ _ _ Hrow).
    rewrite insert_app_r_alt by (rewrite length_take; lia).
    rewrite length_take, Nat.min_l, Nat.sub_diag by lia. simpl.
    rewrite drop_insert_lt by lia.
    rewrite (drop_S _ _ _ Hrow). unfold snoc_all. simpl.
    by rewrite <- app_assoc.
Qed.

Lemma batchable_column slots lengths requests_tensors j slot :
  batchable slots lengths requests_tensors ->
  slots !! j = Some slot ->
  exists column,
    mapM (fun request_tensors => getitem request_tensors j) requests_tensors
    = Ok column /\
    column_of requests_tensors j column /\
    Forall2 (fun t n => fits slot n t) column lengths.
Proof.
  intros shaped Hslot. unfold column_of.
  induction shaped as [|r n rs ns Hr _ IH].
  - exists []. repeat split; constructor.
  - destruct IH as (column & Hmap & Hcol & Hfits).
    destruct (Forall2_lookup_r _ _ _ _ _ Hr Hslot) as (t & Ht & Hfit).
    exists (t :: column). rewrite mapM_result_cons.
    rewrite (getitem_Some _ _ _ Ht). simpl. rewrite Hmap.
    repeat split; by constructor.
Qed.

Lemma batchable_sections slots lengths requests_tensors :
  batchable slots lengths requests_tensors ->
  slots <> [] -> mapM spec_section requests_tensors = Ok lengths.
Proof.
  intros shaped Hslots. destruct slots as [|slot others]; [done|].
  induction shaped as [|r n rs ns Hr _ IH]; [reflexivity|].
  rewrite mapM_result_cons. rewrite IH.
  inversion Hr as [|t ? ts ? (_ & _ & Hshape) _]; subst.
  unfold spec_section, size. simpl. by rewrite Hshape.
Qed.

Lemma batchable_lengths slots lengths requests_tensors :
  batchable slots lengths requests_tensors ->
  Forall (fun request_tensors => length request_tensors = length slots)
         requests_tensors.
Proof.
  induction 1 as [|r n rs ns Hr _ IH]; constructor; [|exact IH].
  by eapply Forall2_length.
Qed.

Lemma merge_slot_splits slots lengths requests_tensors j slot :
  batchable slots lengths requests_tensors ->
  requests_tensors <> [] ->
  slots !! j = Some slot ->
  exists joined column,
    spec_merge_slot requests_tensors j = Ok joined /\
    shape joined = sum_list lengths :: slot.2 /\
    column_of requests_tensors j column /\
    torch_split joined lengths = Ok column.
Proof.
  intros shaped Hsome Hslot.
  destruct (batchable_column _ _ _ j slot shaped Hslot)
    as (column & Hmap & Hcol & Hfits).
  unfold spec_merge_slot. rewrite Hmap. simpl.
  destruct Hfits as [|t n ts ns Ht Hts].
  - inversion Hcol; subst. done.
  - destruct (split_cat_onto slot t ts n ns Ht Hts)
      as (joined & Hcat & Hshape & Hsplit).
    exists joined, (t :: ts). by rewrite Hcat.
Qed.

Lemma snoc_column requests_tensors j rows column :
  Forall2 (fun request_tensors row => row = take j request_tensors)
          requests_tensors rows ->
  column_of requests_tensors j column ->
  Forall2 (fun request_tensors row => row = take (S j) request_tensors)
          requests_tensors (snoc_all rows column).
Proof.
  unfold column_of. intros Hrows. revert column.
  induction Hrows as [|r row rs rows' -> _ IH]; intros column Hcol;
    inversion Hcol as [|? t ? ts Ht Hts]; subst; simpl; constructor.
  - by rewrite (take_S_r _ _ _ Ht).
  - by apply IH.
Qed.

Lemma first_column requests_tensors column :
  column_of requests_tensors 0 column ->
  Forall2 (fun request_tensors row => row = take 1 request_tensors)
          requests_tensors ((fun t => [t]) <$> column).
Proof.
  unfold column_of.
  induction 1 as [|r t rs ts Ht _ IH]; simpl; constructor; [|exact IH].
  by rewrite (take_S_r _ _ _ Ht).
Qed.

Lemma unbatch_remaining_slots requests_tensors lengths merged j rows :
  Forall2 (fun j' joined =>
             exists column,
               column_of requests_tensors j' column /\
               torch_split joined lengths = Ok column)
          (seq j (length merged)) merged ->
  Forall2 (fun request_tensors row => row = take j request_tensors)
          requests_tensors rows ->
  exists out,
    unbatch_slots merged lengths rows = Ok out /\
    Forall2 (fun request_tensors row =>
               row = take (j + length merged) request_tensors)
            requests_tensors out.
Proof.
  revert j rows. induction merged as [|joined merged IH]; intros j rows; simpl.
  - intros _ Hrows. exists rows. by rewrite Nat.add_0_r.
  - intros Hall Hrows.
    inversion Hall as [|? ? ? ? (column & Hcol & Hsplit) Hrest]; subst.
    rewrite Hsplit. simpl.
    rewrite unbatch_pieces_add.
    2:{ apply Forall2_length in Hrows, Hcol. simpl. congruence. }
    simpl. rewrite drop_0.
    destruct (IH (S j) (snoc_all rows column) Hrest
                (snoc_column _ j rows column Hrows Hcol)) as (out & Hout & Hfinal).
    exists out. split; [exact Hout|].
    by replace (j + S (length merged)) with (S j + length merged) by lia.
Qed.

Lemma merged_slots_split slots lengths requests_tensors :
  batchable slots lengths requests_tensors ->
  requests_tensors <> [] ->
  forall j others,
    j + length others = length slots ->
    others = drop j slots ->
    exists merged,
      mapM (spec_merge_slot requests_tensors) (seq j (length others)) = Ok merged /\
      length merged = length others /\
      Forall (fun joined => exists inner, shape joined = sum_list lengths :: inner)
             merged /\
      Forall2 (fun j' joined =>
                 exists column,
                   column_of requests_tensors j' column /\
                   torch_split joined lengths = Ok column)
              (seq j (length merged)) merged.
Proof.
  intros shaped Hsome j others. revert j.
  induction others as [|slot others IH]; intros j Hlen Hdrop.
  - exists []. repeat split; constructor.
  - assert (Hslot : slots !! j = Some slot).
    { rewrite <- (Nat.add_0_r j), <- lookup_drop, <- Hdrop. reflexivity. }
    destruct (merge_slot_splits _ _ _ j slot shaped Hsome Hslot)
      as (joined & column & Hmerge & Hshape & Hcol & Hsplit).
    destruct (IH (S j)) as (merged & Hmap & Hlength & Hshapes & Hsplits).
    { simpl in Hlen. lia. }
    { rewrite (drop_S _ _ _ Hslot) in Hdrop. by injection Hdrop. }
    exists (joined :: merged).
    change (seq j (length (slot :: others)))
      with (j :: seq (S j) (length others)).
    rewrite mapM_result_cons, Hmerge. simpl. rewrite Hmap. simpl.
    split; [done|]. split; [by rewrite Hlength|].
    split; constructor; eauto.
Qed.

(** For requests that can be batched, at least one of them and at least
    one slot, the batch as specified has the lengths of the requests as
    its sections, every merged tensor is as long along axis 0 as the
    sections add up to, and unbatching the merged tensors gives the
    requests back. *)
Lemma spec_batch_roundtrip slots lengths requests_tensors :
  batchable slots lengths requests_tensors ->
  requests_tensors <> [] ->
  slots <> [] ->
  exists merged,
    spec_batch requests_tensors = Ok ([merged], lengths) /\
    Forall (fun joined => exists inner, shape joined = sum_list lengths :: inner)
           merged /\
    _unbatch_torch_tensors merged lengths = Ok requests_tensors.
Proof.
  intros shaped Hsome Hslots.
  pose proof (batchable_lengths _ _ _ shaped) as Hlengths.
  destruct (merged_slots_split _ _ _ shaped Hsome 0 slots eq_refl eq_refl)
    as (merged & Hmap & Hlength & Hshapes & Hsplits).
  exists merged. split; [|split; [exact Hshapes|]].
  - unfold spec_batch.
    destruct requests_tensors as [|first others]; [done|].
    inversion Hlengths as [|? ? Hfirst _]; subst. simpl head. simpl default.
    rewrite Hfirst, Hmap.
    unfold mbind at 1, result_bind at 1.
    by rewrite (batchable_sections _ _ _ shaped Hslots).
  - unfold _unbatch_torch_tensors.
    destruct merged as [|joined merged].
    { destruct slots; [done | discriminate Hlength]. }
    simpl in Hsplits.
    inversion Hsplits as [|? ? ? ? (column & Hcol & Hsplit) Hrest]; subst.
    simpl. rewrite Hsplit. simpl.
    rewrite (unbatch_pieces_new column 0 []) by reflexivity. simpl.
    destruct (unbatch_remaining_slots _ _ merged 1 _ Hrest
                (first_column _ _ Hcol)) as (out & Hout & Hfinal).
    rewrite Hout. f_equal.
    simpl in Hlength.
    clear -Hfinal Hlengths Hlength.
    induction Hfinal as [|r row rs rows -> _ IH]; [reflexivity|].
    inversion Hlengths as [|? ? Hr Hrs]; subst.
    rewrite take_ge by lia. f_equal. by apply IH.
Qed.

(** Three requests of 1, 4 and 2 examples, with two tensors each. *)
Example spec_batch_three_requests :
  let requests_tensors :=
    [[examples [1]; examples [10]];
     [examples [2; 3; 4; 5]; examples [20; 30; 40; 50]];
     [examples [6; 7]; examples [60; 70]]]%Z in
  exists merged,
    spec_batch requests_tensors = Ok ([merged], [1; 4; 2]) /\
    Forall (fun joined => exists inner, shape joined = 7 :: inner) merged /\
    _unbatch_torch_tensors merged [1; 4; 2] = Ok requests_tensors.
Proof.
  apply (spec_batch_roundtrip [(Device "cpu", [1]); (Device "cpu", [1])]);
    [|discriminate..].
  repeat constructor.
Qed.

(** ** What the code's batch returns *)

Lemma batch_requests_sections requests_tensors batch_tensors sections out :
  batch_requests requests_tensors batch_tensors sections = Ok out ->
  exists later,
    out.2 = sections ++ later /\ mapM spec_section requests_tensors = Ok later.
Proof.
  revert batch_tensors sections.
  induction requests_tensors as [|r rs IH]; intros batch_tensors sections.
  - simpl. intros [= <-]. exists []. by rewrite app_nil_r.
  - intros Hrun. simpl in Hrun.
    destruct (batch_request r 0 batch_tensors) as [merged|e]; [|discriminate].
    simpl in Hrun.
    destruct (getitem r 0) as [first|e] eqn:Hfirst; [|discriminate].
    simpl in Hrun.
    destruct (getitem (size first) 0) as [n|e] eqn:Hn; [|discriminate].
    simpl in Hrun. apply IH in Hrun as (later & -> & Hlater).
    exists (n :: later).
    split; [by rewrite <- app_assoc|].
    rewrite mapM_result_cons, Hlater. unfold spec_section.
    rewrite Hfirst. simpl. by rewrite Hn.
Qed.

(** When [batch] accepts requests of which one after the first is not
    empty along axis 0, the merged set is the first request's, its slot-0
    tensor is shorter than the sections add up to, and unbatching the
    merged set raises. *)
Lemma batch_drops_later_requests request_tensors others merged sections :
  Forall (fun r => length r <= length request_tensors) others ->
  _batch_torch_tensors (request_tensors :: others) = Ok (merged, sections) ->
  exists n later,
    merged = [request_tensors] /\
    sections = n :: later /\
    spec_section request_tensors = Ok n /\
    mapM spec_section others = Ok later /\
    (0 < sum_list later ->
     _unbatch_torch_tensors request_tensors sections = Raise RuntimeError).
Proof.
  intros Hall Hbatch.
  destruct (batch_returns_first_request _ _ _ _ Hall Hbatch) as [-> _].
  revert Hbatch. unfold _batch_torch_tensors. simpl.
  rewrite batch_request_first. simpl. unfold spec_section.
  destruct request_tensors as [|first rest]; [discriminate|]. simpl.
  destruct (shape first) as [|n inner] eqn:Hshape;
    unfold size; rewrite Hshape; [discriminate|]. simpl.
  destruct (batch_requests others (first :: rest) [n]) as [out|e] eqn:Hrest;
    [|discriminate].
  destruct (batch_requests_sections _ _ _ _ Hrest) as (later & Hout & Hlater).
  destruct out as [kept sections']. simpl in Hout. simpl.
  intros [= _ <-]. subst sections'. exists n, later.
  split; [reflexivity|]. split; [reflexivity|]. split; [reflexivity|].
  split; [exact Hlater|].
  intros Hpos. unfold _unbatch_torch_tensors. simpl.
  unfold torch_split. rewrite Hshape.
  by rewrite bool_decide_eq_false_2 by (simpl; lia).
Qed.

(** C1. Two requests with one tensor of one example each: [batch]
    returns the first request's tensor alone as the merged tensor, with
    the sections [[1; 1]]; the model that returns its input hands that
    tensor to [unbatch], whose split by [[1; 1]] of an axis of length 1
    raises, where the specification has the two original tensor sets come
    back.  The batch as specified joins the two tensors, and unbatching
    the join gives the two tensor sets back. *)
Theorem roundtrip_two_requests :
  let requests_tensors := [[examples [5%Z]]; [examples [7%Z]]] in
  _batch_torch_tensors requests_tensors = Ok ([[examples [5%Z]]], [1; 1]) /\
  _unbatch_torch_tensors [examples [5%Z]] [1; 1] = Raise RuntimeError /\
  _unbatch_torch_tensors [examples [5%Z]] [1; 1] <> Ok requests_tensors /\
  spec_batch requests_tensors = Ok ([[examples [5%Z; 7%Z]]], [1; 1]) /\
  _unbatch_torch_tensors [examples [5%Z; 7%Z]] [1; 1] = Ok requests_tensors.
Proof.
  intros requests_tensors.
  destruct (batch_drops_later_requests [examples [5%Z]] [[examples [7%Z]]]
              [[examples [5%Z]]] [1; 1])
    as (n & later & _ & [= <- <-] & _ & _ & Hraise).
  { repeat constructor. }
  { reflexivity. }
  split; [reflexivity|]. split; [apply Hraise; simpl; lia|].
  split; [rewrite Hraise by (simpl; lia); discriminate|].
  split; reflexivity.
Qed.

(** C2. On the same two requests [batch] succeeds, its sections add up
    to 2 and the axis 0 of the merged tensor of slot 0 has length 1; the
    batch as specified has a merged tensor of length 2. *)
Theorem sections_sum_two_requests :
  let requests_tensors := [[examples [5%Z]]; [examples [7%Z]]] in
  (exists merged sections,
      _batch_torch_tensors requests_tensors = Ok ([merged], sections) /\
      sum_list sections = 2 /\
      size <$> merged = [[1; 1]]) /\
  (exists merged sections,
      spec_batch requests_tensors = Ok ([merged], sections) /\
      sum_list sections = 2 /\
      size <$> merged = [[2; 1]]).
Proof.
  split.
  - exists [examples [5%Z]], [1; 1]. repeat split.
  - exists [examples [5%Z; 7%Z]], [1; 1]. repeat split.
Qed.

(** ** Calls and outcome of traced code *)

Lemma outcome_bind {A B} (m : traced A) (f : A -> traced B) :
  outcome (m ≫= f) = outcome m ≫= (fun a => outcome (f a)).
Proof. unfold mbind, traced_bind, result_bind. by destruct (outcome m). Qed.

Lemma calls_bind {A B} (m : traced A) (f : A -> traced B) :
  calls (m ≫= f)
  = calls m ++ match outcome m with Ok a => calls (f a) | Raise _ => [] end.
Proof.
  unfold mbind, traced_bind. destruct (outcome m); simpl; [done|].
  by rewrite app_nil_r.
Qed.

Lemma outcome_mapM {A B} (f : A -> traced B) l :
  outcome (mapM f l) = mapM (fun x => outcome (f x)) l.
Proof.
  induction l as [|x l IH]; [reflexivity|].
  rewrite mapM_result_cons.
  change (mapM f (x :: l)) with (y ← f x; k ← mapM f l; mret (y :: k)).
  rewrite outcome_bind. destruct (outcome (f x)) as [y|e]; simpl; [|done].
  rewrite outcome_bind, IH.
  by destruct (mapM (fun x0 => outcome (f x0)) l).
Qed.

Lemma calls_mapM {A B} (P : event -> Prop) (f : A -> traced B) l :
  (forall x, Forall P (calls (f x))) -> Forall P (calls (mapM f l)).
Proof.
  intros Hf. induction l as [|x l IH]; [constructor|].
  change (mapM f (x :: l)) with (y ← f x; k ← mapM f l; mret (y :: k)).
  rewrite calls_bind. apply Forall_app. split; [apply Hf|].
  destruct (outcome (f x)); [|constructor].
  rewrite calls_bind. apply Forall_app. split; [exact IH|].
  destruct (outcome (mapM f l)); constructor.
Qed.

Section ExecuteFacts.
Context `{Runtime}.
Variable self : gmap string py_value.
Hypothesis batching_off : self !! "_support_batching" = Some (VBool false).

Lemma support_batching_off : getattr self "_support_batching" ≫= as_bool = Ok false.
Proof. unfold getattr. by rewrite batching_off. Qed.

Lemma calls_call_model input_tensors :
  Forall (fun e => is_batch_call e = false) (calls (call_model self input_tensors)).
Proof.
  unfold call_model. rewrite calls_bind. simpl.
  destruct (getattr self "_model" ≫= as_module) as [model|e]; simpl;
    [|constructor].
  rewrite calls_bind. simpl. repeat constructor.
  destruct (forward model input_tensors); constructor.
Qed.

Lemma execute_unbatched_calls requests :
  Forall (fun e => is_batch_call e = false) (calls (execute self requests)).
Proof.
  unfold execute. rewrite support_batching_off.
  rewrite calls_bind. simpl.
  destruct (mapM (request_tensors_of self) requests) as [requests_tensors|e];
    [|constructor].
  repeat (rewrite calls_bind; simpl).
  apply Forall_app. split; [apply calls_mapM, calls_call_model|].
  destruct (outcome (mapM (call_model self) requests_tensors)); constructor.
Qed.

Lemma execute_unbatched_outcome requests :
  outcome (execute self requests) = 
  (requests_tensors ← mapM (request_tensors_of self) requests;
   responses_tensors ← mapM (fun x => outcome (call_model self x)) requests_tensors;
   mapM (response_of self) responses_tensors).
Proof.
  unfold execute. rewrite support_batching_off.
  rewrite outcome_bind. simpl.
  destruct (mapM (request_tensors_of self) requests) as [requests_tensors|e];
    [|reflexivity].
  simpl. rewrite !outcome_bind. simpl. by rewrite outcome_mapM.
Qed.

Lemma execute_unbatched_serves requests responses :
  outcome (execute self requests) = Ok responses <->
  Forall2 (fun request response => serve self request = Ok response)
          requests responses.
Proof.
  rewrite execute_unbatched_outcome, <- mapM_Ok_Forall2.
  unfold serve.
  rewrite <- mapM_compose.
  destruct (mapM (request_tensors_of self) requests) as [requests_tensors|e];
    [|done].
  simpl.
  apply (mapM_compose (fun x => outcome (call_model self x)) (response_of self)).
Qed.
End ExecuteFacts.

(** ** The instance through [initialize] *)

Section InitializeFacts.
Context `{Runtime}.

Lemma preserves_ret {A} k (a : A) : preserves k (mret a).
Proof. by intros w. Qed.

Lemma preserves_lift {A} k (r : result A) : preserves k (lift r).
Proof. by intros w. Qed.

Lemma preserves_on_torch {A} k (m : action torch_state A) :
  preserves k (on_torch m).
Proof. intros w. unfold on_torch. by destruct (m (torch w)). Qed.

Lemma preserves_setattr k attr v : k <> attr -> preserves k (setattr attr v).
Proof. intros Hne w. simpl. by rewrite lookup_insert_ne. Qed.

Lemma preserves_bind {A B} k (m : action world A) (f : A -> action world B) :
  preserves k m -> (forall a, preserves k (f a)) -> preserves k (m ≫= f).
Proof.
  intros Hm Hf w. unfold mbind, action_bind.
  specialize (Hm w). destruct (m w) as [w1 [a|e]]; simpl in *.
  - by rewrite Hf.
  - exact Hm.
Qed.

Lemma configure_preserves args k :
  k ∉ ["_model_name"; "_model_config"; "_support_batching"; "_inputs";
       "_outputs"; "_infer_mode"; "_device"; "_batcher"; "_unbatcher"] ->
  preserves k (configure args).
Proof.
  intros Hk. unfold configure.
  repeat first
    [ apply preserves_bind; [|intros ?]
    | apply preserves_setattr; intros ->; apply Hk; by repeat constructor
    | apply preserves_lift | apply preserves_on_torch | apply preserves_ret
    | match goal with |- preserves _ (if ?b then _ else _) => destruct b end ].
Qed.

Lemma assigns_setattr_bind {A} k v (f : unit -> action world A) :
  preserves k (f ()) -> assigns k v (setattr k v ≫= f).
Proof.
  intros Hf w. unfold mbind, action_bind. simpl.
  rewrite Hf. simpl. apply lookup_insert_eq.
Qed.

Lemma assigns_after_setattr {A} k v attr v' (f : unit -> action world A) :
  assigns k v (f ()) -> assigns k v (setattr attr v' ≫= f).
Proof. intros Hf w. unfold mbind, action_bind. simpl. apply Hf. Qed.

Lemma assigns_bind {A B} k v (m : action world A) (f : A -> action world B) :
  assigns k v m -> (forall a, preserves k (f a)) -> assigns k v (m ≫= f).
Proof.
  intros Hm Hf w. unfold mbind, action_bind.
  specialize (Hm w). destruct (m w) as [w1 [a|e]]; simpl in *.
  - by rewrite Hf.
  - exact Hm.
Qed.

Ltac preserves_tac :=
  repeat first
    [ apply preserves_bind; [|intros ?]
    | apply preserves_setattr; discriminate
    | apply preserves_lift | apply preserves_on_torch | apply preserves_ret
    | match goal with |- preserves _ (if ?b then _ else _) => destruct b end ].

Lemma load_preserves_support_batching args configured model_path :
  preserves "_support_batching"
    (if negb (_is_py_class_model model_path)
     then load_torchscript model_path configured.1
     else load_py_class (model_name args) model_path configured.1 configured.2).
Proof.
  unfold load_torchscript, load_py_class. preserves_tac.
Qed.

Lemma initialize_support_batching args w :
  self (initialize args w).1 !! "_support_batching"
  = Some (VBool (0 <? max_batch_size (model_config_arg args))%Z).
Proof.
  revert w. change (assigns "_support_batching"
    (VBool (0 <? max_batch_size (model_config_arg args))%Z) (initialize args)).
  unfold initialize. apply assigns_bind.
  - unfold configure. do 2 apply assigns_after_setattr.
    apply assigns_setattr_bind. preserves_tac.
  - intros configured. cbv zeta. apply preserves_bind; [apply preserves_lift|].
    intros model_path. apply load_preserves_support_batching.
Qed.

Lemma initialize_without_model args w :
  Forall (fun f => os_path_exists (os_path_join get_model_dir f) = false)
         (candidate_filenames (model_config_arg args)) ->
  let config := model_config_arg args in
  let not_found := no_model_found get_model_dir py_str (candidate_filenames config) in
  self (initialize args w).1 !! "_model" = self w !! "_model" /\
  (exists e, (initialize args w).2 = Raise e) /\
  (is_ok (configure args w).2 = true -> (initialize args w).2 = Raise not_found).
Proof.
  intros Hmissing config not_found.
  assert (Hpath : _get_model_path get_model_dir os_path_exists py_str config
                  = Raise not_found).
  { unfold _get_model_path, not_found, config.
    by rewrite (proj2 (first_existing_none _ _ _) Hmissing). }
  assert (Hkeep : self (configure args w).1 !! "_model" = self w !! "_model").
  { apply configure_preserves. intros Hin.
    repeat (apply elem_of_cons in Hin as [Hin|Hin]; [discriminate Hin|]).
    by apply elem_of_nil in Hin. }
  unfold initialize, mbind, action_bind.
  destruct (configure args w) as [w1 [configured|e]]; simpl in *.
  - fold config. rewrite Hpath. simpl. eauto.
  - split; [exact Hkeep|]. split; [eauto | discriminate].
Qed.
End InitializeFacts.

(** ** [execute] *)

(** C3. With batching on (a maximum batch size of 8) and the model that
    returns its input, a call with two requests raises in [unbatch] and
    returns no responses, where the specification, like the docstring of
    [execute], has two responses come back, one per request; with batching
    off the same two requests get their two responses, in order. *)
Theorem execute_two_requests :
  let requests := [example_request [5%Z]; example_request [7%Z]] in
  (initialize (example_args 8) (fresh_world example_runtime ())).2 = Ok () /\
  outcome (execute batching_instance requests) = Raise RuntimeError /\
  outcome (execute plain_instance requests)
  = Ok [example_response [5%Z]; example_response [7%Z]].
Proof. vm_compute. repeat split. Qed.

(** C4. When the maximum batch size is at most 0, [execute] on the
    instance [initialize] leaves calls neither the batcher nor the
    unbatcher, whatever the requests.  It returns a list of responses
    exactly when that list holds, position by position, what serving each
    request on its own returns; so the responses are as many as the
    requests, and in two calls whose requests differ at position [i] only,
    the responses at every other position are the same. *)
Theorem unbatched_execute_isolates `{Runtime}
    (args : initialize_args) (w : world)
    (requests1 requests2 : list inference_request) (i : nat) :
  (max_batch_size (model_config_arg args) <= 0)%Z ->
  length requests1 = length requests2 ->
  (forall j, j <> i -> requests1 !! j = requests2 !! j) ->
  let instance := self (initialize args w).1 in
  Forall (fun e => is_batch_call e = false)
         (calls (execute instance requests1)) /\
  (forall responses,
      outcome (execute instance requests1) = Ok responses <->
      Forall2 (fun request response => serve instance request = Ok response)
              requests1 responses) /\
  (forall responses1 responses2,
      outcome (execute instance requests1) = Ok responses1 ->
      outcome (execute instance requests2) = Ok responses2 ->
      length responses1 = length requests1 /\
      forall j, j <> i -> responses1 !! j = responses2 !! j).
Proof.
  intros Hsize Hlen Hsame instance.
  assert (Hoff : instance !! "_support_batching" = Some (VBool false)).
  { unfold instance. rewrite initialize_support_batching.
    by replace (0 <? max_batch_size (model_config_arg args))%Z with false
      by (symmetry; apply Z.ltb_ge; exact Hsize). }
  split; [by apply execute_unbatched_calls|].
  split; [intros responses; by apply execute_unbatched_serves|].
  intros responses1 responses2
    Hrun1%(execute_unbatched_serves _ Hoff) Hrun2%(execute_unbatched_serves _ Hoff).
  split; [symmetry; by eapply Forall2_length|].
  intros j Hj. specialize (Hsame j Hj).
  destruct (requests1 !! j) as [request|] eqn:Hreq.
  - destruct (Forall2_lookup_l _ _ _ _ _ Hrun1 Hreq) as (r1 & -> & Hr1).
    symmetry in Hsame.
    destruct (Forall2_lookup_l _ _ _ _ _ Hrun2 Hsame) as (r2 & -> & Hr2).
    congruence.
  - symmetry in Hsame.
    apply lookup_ge_None in Hreq, Hsame.
    apply Forall2_length in Hrun1, Hrun2.
    rewrite (proj2 (lookup_ge_None responses1 j)) by lia.
    by rewrite (proj2 (lookup_ge_None responses2 j)) by lia.
Qed.

(** Three requests, and three that differ from them in the second only. *)
Lemma unbatched_execute_isolates_witness :
  let requests1 :=
    [example_request [5%Z]; example_request [7%Z]; example_request [9%Z]] in
  let requests2 :=
    [example_request [5%Z]; example_request [8%Z]; example_request [9%Z]] in
  Forall (fun e => is_batch_call e = false)
         (calls (execute plain_instance requests1)) /\
  forall responses1 responses2,
    outcome (execute plain_instance requests1) = Ok responses1 ->
    outcome (execute plain_instance requests2) = Ok responses2 ->
    length responses1 = 3 /\
    responses1 !! 0 = responses2 !! 0 /\ responses1 !! 2 = responses2 !! 2.
Proof.
  intros requests1 requests2.
  assert (Hsame : forall j, j <> 1 -> requests1 !! j = requests2 !! j).
  { intros [|[|j]] Hj; [reflexivity | contradiction | reflexivity]. }
  destruct (@unbatched_execute_isolates example_runtime (example_args 0)
              (fresh_world example_runtime ()) requests1 requests2 1
              ltac:(simpl; lia) eq_refl Hsame) as (Hcalls & _ & Hresponses).
  split; [exact Hcalls|].
  intros responses1 responses2 Hrun1 Hrun2.
  destruct (Hresponses responses1 responses2 Hrun1 Hrun2) as [Hlen Heq].
  split; [exact Hlen|]. split; apply Heq; discriminate.
Defined.

(** ** Loading without a model *)

(** C6. The locator fails exactly when none of the candidate paths
    exists, and then with the model-not-found error, a
    [TritonModelException].  In that case [initialize] raises, an instance
    without a model handle is left without one, and when the steps before
    the lookup go through, what [initialize] raises is the
    model-not-found error. *)
Theorem locate_model_not_found `{Runtime}
    (args : initialize_args) (w : world) :
  let config := model_config_arg args in
  let locate := _get_model_path get_model_dir os_path_exists py_str in
  let none_exists :=
    Forall (fun f => os_path_exists (os_path_join get_model_dir f) = false)
           (candidate_filenames config) in
  let not_found :=
    no_model_found get_model_dir py_str (candidate_filenames config) in
  (exists msg, not_found = TritonModelException msg) /\
  (locate config = Raise not_found <-> none_exists) /\
  (forall e, locate config = Raise e -> e = not_found) /\
  (none_exists ->
   self w !! "_model" = None ->
   self (initialize args w).1 !! "_model" = None /\
   (exists e, (initialize args w).2 = Raise e) /\
   (is_ok (configure args w).2 = true ->
    (initialize args w).2 = Raise not_found)).
Proof.
  intros config locate none_exists not_found.
  split; [by eexists|].
  assert (Hcases : forall e, locate config = Raise e ->
                             e = not_found /\ none_exists).
  { intros e. unfold locate, _get_model_path.
    destruct (first_existing _ _ _) eqn:Hfirst; [discriminate|].
    intros [= <-]. split; [reflexivity|].
    by apply first_existing_none. }
  split; [|split].
  - split; [intros Hraise; by apply (Hcases _ Hraise)|].
    intros Hnone. unfold locate, _get_model_path.
    by rewrite (proj2 (first_existing_none _ _ _) Hnone).
  - intros e Hraise. by apply (Hcases _ Hraise).
  - intros Hnone Hunset.
    destruct (initialize_without_model args w Hnone) as (Hkeep & Hraise & Hkind).
    rewrite Hkeep. auto.
Qed.

(** An empty model directory. *)
Lemma locate_model_not_found_witness :
  let w := @initialize empty_dir_runtime (example_args 0)
             (fresh_world empty_dir_runtime ()) in
  self w.1 !! "_model" = None /\
  w.2 = Raise (TritonModelException
                 "No model found in /models/net/1/model.py, model.pt, model.pth").
Proof.
  intros w.
  destruct (@locate_model_not_found empty_dir_runtime (example_args 0)
              (fresh_world empty_dir_runtime ())) as (_ & _ & _ & Hinit).
  destruct Hinit as (Hunset & _ & Hraise).
  - repeat constructor.
  - reflexivity.
  - split; [exact Hunset|]. apply Hraise. reflexivity.
Defined.

(** * Further properties of the handler *)

(** ** Strings *)

Lemma append_cons c (a b : string) : String c a +:+ b = String c (a +:+ b).
Proof. reflexivity. Qed.

Lemma append_nonempty (a b : string) : b <> "" -> a +:+ b <> "".
Proof. destruct a; [done | rewrite append_cons; discriminate]. Qed.

Lemma length_append (a b : string) :
  String.length (a +:+ b) = String.length a + String.length b.
Proof.
  induction a as [|c a IH]; [done|].
  rewrite append_cons. simpl. by rewrite IH.
Qed.

Lemma substring_whole (s : string) n :
  String.length s <= n -> substring 0 n s = s.
Proof.
  revert n. induction s as [|c s IH]; intros [|n] Hn; simpl in *; try done.
  - lia.
  - f_equal. apply IH. lia.
Qed.

Lemma substring_append (a b : string) k n :
  substring (String.length a + k) n (a +:+ b) = substring k n b.
Proof.
  induction a as [|c a IH]; [done|].
  rewrite append_cons. simpl. exact IH.
Qed.

Lemma substring_split (s : string) n :
  n <= String.length s ->
  s = substring 0 n s +:+ substring n (String.length s - n) s.
Proof.
  revert n. induction s as [|c s IH]; intros [|n] Hn; simpl in *.
  - done.
  - lia.
  - by rewrite substring_whole by lia.
  - rewrite append_cons. f_equal. apply IH. lia.
Qed.

Lemma substring_length_le (s : string) k n :
  String.length (substring k n s) <= n.
Proof.
  revert k n. induction s as [|c s IH]; intros [|k] [|n]; simpl; try lia.
  - specialize (IH 0 n). lia.
  - apply IH.
  - apply IH.
Qed.

Lemma last3_append (a b : string) :
  3 <= String.length b -> last3 (a +:+ b) = last3 b.
Proof.
  intros Hb. unfold last3. rewrite length_append.
  replace (String.length a + String.length b - 3)
    with (String.length a + (String.length b - 3)) by lia.
  apply substring_append.
Qed.

(** A string ends with [.py] exactly when its last three characters are
    [.py]. *)
Lemma last3_py (s : string) : last3 s = ".py" <-> exists stem, s = stem +:+ ".py".
Proof.
  unfold last3. split.
  - intros Hlast.
    destruct (le_lt_dec (String.length s) 3) as [Hle|Hgt].
    + replace (String.length s - 3) with 0 in Hlast by lia.
      rewrite substring_whole in Hlast by lia. exists "". by subst.
    + exists (substring 0 (String.length s - 3) s).
      rewrite <- Hlast.
      pose proof (substring_split s (String.length s - 3) ltac:(lia)) as Hsplit.
      by replace (String.length s - (String.length s - 3)) with 3 in Hsplit
        by lia.
  - intros [stem ->]. rewrite length_append. simpl.
    replace (String.length stem + 3 - 3) with (String.length stem + 0) by lia.
    by rewrite substring_append.
Qed.

(** ** Locating and classifying the model *)

(** X1. The companion parameter file of a model path is the path with
    [.pt] appended when that file exists, else the path with [.pth]
    appended when that one exists, and the empty string exactly when
    neither exists; a path that is returned exists. *)
Theorem model_data_path_first_existing
    (os_path_exists : string -> bool) (model_path : string) :
  let data_path := _get_model_data_path os_path_exists model_path in
  (os_path_exists (model_path +:+ ".pt") = true ->
   data_path = model_path +:+ ".pt") /\
  (os_path_exists (model_path +:+ ".pt") = false ->
   os_path_exists (model_path +:+ ".pth") = true ->
   data_path = model_path +:+ ".pth") /\
  (data_path = "" <->
   os_path_exists (model_path +:+ ".pt") = false /\
   os_path_exists (model_path +:+ ".pth") = false) /\
  (data_path <> "" -> os_path_exists data_path = true).
Proof.
  unfold _get_model_data_path. simpl.
  assert (Hpt : model_path +:+ ".pt" <> "") by (by apply append_nonempty).
  assert (Hpth : model_path +:+ ".pth" <> "") by (by apply append_nonempty).
  destruct (os_path_exists (model_path +:+ ".pt")) eqn:Ept;
    destruct (os_path_exists (model_path +:+ ".pth")) eqn:Epth;
    repeat split; try done; try (intros []; done).
Qed.

Lemma model_data_path_first_existing_witness :
  _get_model_data_path
    (fun p => String.eqb p "/models/net/1/model.py.pth") "/models/net/1/model.py"
  = "/models/net/1/model.py.pth".
Proof.
  refine (proj1 (proj2 (model_data_path_first_existing _ _)) _ _);
    reflexivity.
Defined.

(** X2. A model path is taken for a class-based model exactly when it
    ends with [.py]. *)
Theorem is_py_class_model_suffix (model_path : string) :
  _is_py_class_model model_path = true <->
  exists stem, model_path = stem +:+ ".py".
Proof.
  unfold _is_py_class_model. rewrite <- last3_py.
  by destruct (String.eqb_spec (last3 model_path) ".py").
Qed.

Lemma is_py_class_model_suffix_witness :
  _is_py_class_model "/models/net/1/net.py" = true.
Proof.
  apply is_py_class_model_suffix. by exists "/models/net/1/net".
Defined.

Lemma is_py_class_model_join get_model_dir filename :
  3 <= String.length filename ->
  _is_py_class_model (os_path_join get_model_dir filename)
  = _is_py_class_model filename.
Proof.
  intros Hlen. unfold _is_py_class_model, os_path_join.
  destruct (startswith_sep filename); [done|].
  destruct (String.eqb get_model_dir "" || endswith_sep get_model_dir).
  - by rewrite last3_append.
  - rewrite last3_append; [by rewrite last3_append|].
    rewrite length_append. simpl. lia.
Qed.

(** X3. Joining a filename of at least three characters to the model
    directory does not change whether it counts as class-based; so,
    without a configured default filename, the model that is located is
    class-based exactly when [model.py] exists in the model directory. *)
Theorem located_model_class_based
    (get_model_dir : string) (os_path_exists : string -> bool)
    (py_str : list string -> string) (config : model_config) :
  (forall filename,
      3 <= String.length filename ->
      _is_py_class_model (os_path_join get_model_dir filename)
      = _is_py_class_model filename) /\
  (default_model_filename config = "" ->
   ((exists model_path,
        _get_model_path get_model_dir os_path_exists py_str config
        = Ok model_path /\
        _is_py_class_model model_path = true) <->
    os_path_exists (os_path_join get_model_dir "model.py") = true)).
Proof.
  split; [intros filename; apply is_py_class_model_join|].
  intros Hdefault. unfold _get_model_path, candidate_filenames.
  rewrite Hdefault. simpl.
  destruct (os_path_exists (os_path_join get_model_dir "model.py")) eqn:Epy.
  - split; [done|]. intros _. eexists. split; [done|].
    by rewrite is_py_class_model_join by (simpl; lia).
  - split; [|done]. intros (model_path & Hfound & Hclass).
    destruct (os_path_exists (os_path_join get_model_dir "model.pt")).
    { injection Hfound as <-.
      by rewrite is_py_class_model_join in Hclass by (simpl; lia). }
    destruct (os_path_exists (os_path_join get_model_dir "model.pth"));
      [|done].
    injection Hfound as <-.
    by rewrite is_py_class_model_join in Hclass by (simpl; lia).
Qed.

Lemma located_model_class_based_witness :
  exists model_path,
    _get_model_path "/models/net/1"
      (fun p => String.eqb p "/models/net/1/model.py"
                || String.eqb p "/models/net/1/model.pt")
      (String.concat ", ") (example_config 0)
    = Ok model_path /\
    _is_py_class_model model_path = true.
Proof.
  apply (proj2 (located_model_class_based _ _ _ _)); reflexivity.
Defined.

(** ** Subclass scan *)

(** X4. The scan returns the first attribute, in the order of the
    attribute names, that is a class deriving from the network-module
    base: whatever comes after it, qualifying or not, is not looked at. *)
Theorem subclass_scan_first (before after : py_module)
    (name : string) (attr : py_object) :
  Forall (fun entry => issubclass_nn_Module entry.2 <> Ok true) before ->
  issubclass_nn_Module attr = Ok true ->
  _get_model_class_from_module (before ++ (name, attr) :: after) = Ok attr.
Proof.
  intros Hbefore Hattr.
  induction Hbefore as [|[n a] rest Ha _ IH]; simpl.
  - by rewrite Hattr.
  - change (_get_model_class_from_module ((n, a) :: rest ++ (name, attr) :: after)
            = Ok attr).
    by rewrite scan_skips.
Qed.

Lemma subclass_scan_first_witness :
  let first := PyClass {| class_name := "Encoder"; derives_from_nn_Module := true |} in
  let second := PyClass {| class_name := "Net"; derives_from_nn_Module := true |} in
  _get_model_class_from_module
    [("DEFAULT", PyOther "int"); ("Encoder", first); ("Net", second)]
  = Ok first.
Proof.
  intros first second.
  apply (subclass_scan_first [("DEFAULT", PyOther "int")] [("Net", second)]).
  - repeat constructor. discriminate.
  - reflexivity.
Defined.

(** ** Compile parameters *)

(** X5. Whatever the compile parameters read returns does not hold
    [model]: a returned mapping has no such key.  A parameter text that
    does not parse makes the read raise what the parser raised, and a text
    that parses to null, a boolean or a number makes it raise
    [TypeError]. *)
Theorem compile_params_never_model
    (json_loads : string -> result json) (config : model_config) :
  let read := _get_torch_compile_params json_loads config in
  let given := parameters config !! "TORCH_COMPILE_OPTIONAL_PARAMETERS" in
  (forall params, read = Ok params -> py_in "model" params = Ok false) /\
  (forall members, read = Ok (JObject members) -> "model" ∉ members.*1) /\
  (forall p e,
      given = Some p -> json_loads (string_value p) = Raise e ->
      read = Raise e) /\
  (forall p params,
      given = Some p -> json_loads (string_value p) = Ok params ->
      match params with
      | JNull | JBool _ | JInt _ | JFloat _ => read = Raise TypeError
      | _ => True
      end).
Proof.
  intros read given.
  assert (Hnever : forall params, read = Ok params ->
                                  py_in "model" params = Ok false).
  { intros params. unfold read, _get_torch_compile_params. fold given.
    destruct given as [p|]; [|by intros [= <-]].
    destruct (json_loads (string_value p)) as [parsed|e]; [|done]. simpl.
    destruct (py_in "model" parsed) as [[]|e] eqn:Hin; simpl; try done.
    by intros [= <-]. }
  split; [exact Hnever|]. split; [|split].
  - intros members Hread%Hnever. simpl in Hread.
    injection Hread as Hread. by apply bool_decide_eq_false in Hread.
  - intros p e Hgiven Hparse. unfold read, _get_torch_compile_params.
    fold given. by rewrite Hgiven, Hparse.
  - intros p params Hgiven Hparse. unfold read, _get_torch_compile_params.
    fold given. rewrite Hgiven, Hparse. by destruct params.
Qed.

Lemma compile_params_never_model_witness :
  _get_torch_compile_params (fun _ => Ok (JInt 3))
    (compile_params_config "3") = Raise TypeError /\
  _get_torch_compile_params (fun _ => Raise JSONDecodeError)
    (compile_params_config "{") = Raise JSONDecodeError.
Proof.
  split.
  - exact (proj2 (proj2 (proj2 (compile_params_never_model
             (fun _ => Ok (JInt 3)) (compile_params_config "3"))))
             {| string_value := "3" |} (JInt 3) eq_refl eq_refl).
  - exact (proj1 (proj2 (proj2 (compile_params_never_model
             (fun _ => Raise JSONDecodeError) (compile_params_config "{"))))
             {| string_value := "{" |} JSONDecodeError eq_refl eq_refl).
Defined.

(** ** Parallelism settings *)

(** X6. [_set_torch_parallelism] applies the thread count and then the
    inter-op thread count, each only when its parameter is given, through
    the setters [set_num_threads] and [set_num_interop_threads].  When it
    returns, the message reports the two values read back right after
    each setting, a setting that is not given leaves the state as it is
    and one that is given has been parsed and set.  When it raises, the
    state is either untouched or holds the thread count alone; a thread
    count that does not parse raises before anything is set. *)
Theorem set_torch_parallelism_effects `{Runtime}
    (config : model_config) (t : torch_state) :
  let run := _set_torch_parallelism config t in
  let threads := parameters config !! "NUM_THREADS" in
  let interop := parameters config !! "NUM_INTEROP_THREADS" in
  let applied (setting : option parameter) setter t1 t2 :=
    match setting with
    | Some p => exists n, py_int (string_value p) = Ok n /\
                          torch_setter setter n t1 = Ok t2
    | None => t2 = t1
    end in
  (forall t2 msg,
      run = (t2, Ok msg) ->
      exists t1,
        applied threads "set_num_threads" t t1 /\
        applied interop "set_num_interop_threads" t1 t2 /\
        msg = ("" +:+ "NUM_THREADS" +:+ " = "
                  +:+ str_int (torch_getter "get_num_threads" t1) +:+ "; ")
              +:+ "NUM_INTEROP_THREADS" +:+ " = "
              +:+ str_int (torch_getter "get_num_interop_threads" t2)
              +:+ "; ") /\
  (forall t' e,
      run = (t', Raise e) ->
      t' = t \/ (is_Some threads /\ applied threads "set_num_threads" t t')) /\
  (forall p e,
      threads = Some p -> py_int (string_value p) = Raise e ->
      run = (t, Raise e)).
Proof.
  intros run threads interop applied.
  unfold run, _set_torch_parallelism, set_parallelism.
  change (lower "NUM_THREADS") with "num_threads".
  change (lower "NUM_INTEROP_THREADS") with "num_interop_threads".
  change ("set_" +:+ "num_threads") with "set_num_threads".
  change ("set_" +:+ "num_interop_threads") with "set_num_interop_threads".
  change ("get_" +:+ "num_threads") with "get_num_threads".
  change ("get_" +:+ "num_interop_threads") with "get_num_interop_threads".
  unfold mbind, action_bind, mret, action_ret, lift, torch_get, torch_set.
  fold threads interop.
  destruct threads as [p|]; simpl;
    [destruct (py_int (string_value p)) as [n|e] eqn:Hn;
     [destruct (torch_setter "set_num_threads" n t) as [t1|e] eqn:Ht1|]|];
    (destruct interop as [q|]; simpl;
     [destruct (py_int (string_value q)) as [m|e'] eqn:Hm;
      [try match goal with
           | |- context [torch_setter "set_num_interop_threads" m ?s] =>
               destruct (torch_setter "set_num_interop_threads" m s)
                 as [t2|e''] eqn:Ht2
           end|]|]);
    split_and!; intros; simplify_eq; eauto 10; congruence.
Qed.

Lemma set_torch_parallelism_effects_witness :
  exists n : Z,
    @py_int example_runtime "4" = Ok n /\
    @torch_setter example_runtime "set_num_threads" n () = Ok ().
Proof.
  assert (Hrun : @_set_torch_parallelism example_runtime (threads_config "4") ()
                 = ((), Ok "NUM_THREADS = 1; NUM_INTEROP_THREADS = 1; "))
    by (vm_compute; reflexivity).
  destruct (proj1 (@set_torch_parallelism_effects example_runtime
                     (threads_config "4") ()) _ _ Hrun)
    as ([] & Hthreads & _).
  exact Hthreads.
Defined.

(** ** Batching *)

Lemma batch_Ok_singleton
    (requests_tensors merged : list (list tensor)) (sections : list nat) :
  _batch_torch_tensors requests_tensors = Ok (merged, sections) ->
  (exists batch_tensors, merged = [batch_tensors]) /\
  length sections = length requests_tensors.
Proof.
  unfold _batch_torch_tensors.
  destruct (batch_requests requests_tensors [] []) as [out|e] eqn:Hrun;
    [|discriminate].
  simpl. intros [= <- <-].
  destruct (batch_requests_sections _ _ _ _ Hrun) as (later & -> & Hlater).
  split; [by eexists|]. simpl.
  apply mapM_Ok_Forall2 in Hlater. symmetry. by eapply Forall2_length.
Qed.

(** X7. When [batch] accepts a list of requests it returns one merged
    tensor set, and one section per request, in request order: the
    section of a request is the axis-0 length of its slot-0 tensor.  So a
    request without tensors, or one whose slot-0 tensor has no axis, is
    never accepted. *)
Theorem batch_sections_per_request
    (requests_tensors merged : list (list tensor)) (sections : list nat) :
  _batch_torch_tensors requests_tensors = Ok (merged, sections) ->
  (exists batch_tensors, merged = [batch_tensors]) /\
  length sections = length requests_tensors /\
  Forall2 (fun request_tensors n =>
             exists first inner,
               request_tensors !! 0 = Some first /\ shape first = n :: inner)
          requests_tensors sections.
Proof.
  unfold _batch_torch_tensors.
  destruct (batch_requests requests_tensors [] []) as [out|e] eqn:Hrun;
    [|discriminate].
  simpl. intros [= <- <-].
  destruct (batch_requests_sections _ _ _ _ Hrun) as (later & -> & Hlater).
  simpl. apply mapM_Ok_Forall2 in Hlater.
  split; [by eexists|].
  split; [symmetry; by eapply Forall2_length|].
  eapply Forall2_impl; [exact Hlater|].
  intros r n. unfold spec_section, getitem, size.
  destruct (r !! 0) as [first|]; [|discriminate]. simpl.
  destruct (shape first) as [|k inner] eqn:Hshape; [discriminate|]. simpl.
  intros [= ->]. by exists first, inner.
Qed.


Lemma batch_sections_per_request_witness :
  Forall2 (fun request_tensors n =>
             exists first inner,
               request_tensors !! 0 = Some first /\ shape first = n :: inner)
          [[examples [2; 3]%Z; examples [4; 5]%Z]] [2].
Proof.
  exact (proj2 (proj2 (batch_sections_per_request
           [[examples [2; 3]%Z; examples [4; 5]%Z]]
           [[examples [2; 3]%Z; examples [4; 5]%Z]] [2] eq_refl))).
Defined.

(** ** Unbatching *)

Lemma split_pieces_length device inner sections elements :
  length (split_pieces device inner sections elements) = length sections.
Proof.
  revert elements. induction sections as [|n ns IH]; intros elements; simpl;
    [done | by rewrite IH].
Qed.

Lemma split_pieces_lookup device inner sections elements i piece :
  split_pieces device inner sections elements !! i = Some piece ->
  exists n,
    sections !! i = Some n /\
    tensor_device piece = device /\ shape piece = n :: inner.
Proof.
  revert elements i. induction sections as [|n ns IH]; intros elements i;
    [done|].
  destruct i as [|i]; simpl.
  - intros [= <-]. by exists n.
  - apply IH.
Qed.

Lemma torch_split_Ok t sections pieces :
  torch_split t sections = Ok pieces <->
  exists inner,
    shape t = sum_list sections :: inner /\
    pieces = split_pieces (tensor_device t) inner sections (data t).
Proof.
  unfold torch_split. destruct (shape t) as [|n inner].
  - split; [discriminate | by intros (? & ? & _)].
  - case_bool_decide as Hsum.
    + split; [intros [= <-]; exists inner; by rewrite Hsum|].
      by intros (? & [= _ <-] & ->).
    + split; [discriminate|]. intros (? & [= Hn _] & _). by rewrite Hn in Hsum.
Qed.

Lemma torch_split_raises t sections :
  (forall inner, shape t <> sum_list sections :: inner) ->
  torch_split t sections = Raise RuntimeError.
Proof.
  intros Hbad. unfold torch_split. destruct (shape t) as [|n inner]; [done|].
  case_bool_decide as Hsum; [|done]. by destruct (Hbad inner); rewrite Hsum.
Qed.

(** The rows after the slots of [response_tensors] are added to rows
    that are as many as the sections. *)
Lemma unbatch_slots_rows response_tensors sections rows :
  length rows = length sections ->
  Forall (fun t => exists inner, shape t = sum_list sections :: inner)
         response_tensors ->
  exists out,
    unbatch_slots response_tensors sections rows = Ok out /\
    length out = length sections /\
    forall i row,
      rows !! i = Some row ->
      exists added,
        out !! i = Some (row ++ added) /\
        Forall2 (fun t piece =>
                   exists pieces,
                     torch_split t sections = Ok pieces /\
                     pieces !! i = Some piece)
                response_tensors added.
Proof.
  intros Hrows Hall. revert rows Hrows.
  induction Hall as [|t ts [inner Hshape] _ IH]; intros rows Hrows; simpl.
  - exists rows. split; [done|]. split; [done|].
    intros i row Hrow. exists []. rewrite app_nil_r. by split; [|constructor].
  - assert (Hsplit : torch_split t sections
                     = Ok (split_pieces (tensor_device t) inner sections (data t)))
      by (apply torch_split_Ok; eauto).
    rewrite Hsplit. simpl. set (pieces := split_pieces _ _ _ _) in *.
    assert (Hpieces : length pieces = length sections)
      by apply split_pieces_length.
    rewrite unbatch_pieces_add by (simpl; lia). simpl. rewrite drop_0.
    destruct (IH (snoc_all rows pieces)) as (out & Hout & Hlen & Hlookup).
    { unfold snoc_all. rewrite length_zip_with. lia. }
    exists out. split; [exact Hout|]. split; [exact Hlen|].
    intros i row Hrow.
    destruct (lookup_lt_is_Some_2 pieces i) as [piece Hpiece].
    { apply lookup_lt_Some in Hrow. lia. }
    destruct (Hlookup i (row ++ [piece])) as (added & Hi & Hadded).
    { unfold snoc_all. rewrite lookup_zip_with, Hrow. simpl. by rewrite Hpiece. }
    exists (piece :: added). rewrite <- app_assoc in Hi. split; [exact Hi|].
    constructor; [|exact Hadded]. by exists pieces.
Qed.

Lemma unbatch_slots_app front back sections rows :
  unbatch_slots (front ++ back) sections rows
  = unbatch_slots front sections rows ≫= unbatch_slots back sections.
Proof.
  revert rows. induction front as [|t ts IH]; intros rows; simpl; [done|].
  destruct (torch_split t sections) as [pieces|e]; [|done]. simpl.
  destruct (unbatch_pieces pieces 0 rows) as [rows'|e]; [|done]. simpl.
  apply IH.
Qed.

Lemma unbatch_rows response_tensors sections :
  response_tensors <> [] ->
  Forall (fun t => exists inner, shape t = sum_list sections :: inner)
         response_tensors ->
  exists out,
    _unbatch_torch_tensors response_tensors sections = Ok out /\
    length out = length sections /\
    forall i,
      i < length sections ->
      exists row,
        out !! i = Some row /\
        Forall2 (fun t piece =>
                   exists pieces,
                     torch_split t sections = Ok pieces /\
                     pieces !! i = Some piece)
                response_tensors row.
Proof.
  intros Hsome Hall. unfold _unbatch_torch_tensors.
  destruct Hall as [|t ts [inner Hshape] Hrest]; [done|]. simpl.
  assert (Hsplit : torch_split t sections
                   = Ok (split_pieces (tensor_device t) inner sections (data t)))
    by (apply torch_split_Ok; eauto).
  rewrite Hsplit. simpl. set (pieces := split_pieces _ _ _ _) in *.
  assert (Hpieces : length pieces = length sections)
    by apply split_pieces_length.
  rewrite (unbatch_pieces_new pieces 0 []) by done. simpl.
  destruct (unbatch_slots_rows ts sections ((fun p => [p]) <$> pieces))
    as (out & Hout & Hlen & Hlookup); [by rewrite length_fmap | exact Hrest |].
  exists out. split; [exact Hout|]. split; [exact Hlen|].
  intros i Hi.
  destruct (lookup_lt_is_Some_2 pieces i) as [piece Hpiece]; [lia|].
  destruct (Hlookup i [piece]) as (added & Hrow & Hadded).
  { by rewrite list_lookup_fmap, Hpiece. }
  exists (piece :: added). split; [exact Hrow|].
  constructor; [by exists pieces | exact Hadded].
Qed.

(** X8. [unbatch] of no output tensors returns no responses, whatever
    the sections.  Of output tensors whose axis 0 is as long as the
    sections add up to, it returns one row per section, in order; row [i]
    holds one tensor per output tensor, in slot order, which is piece [i]
    of the split of that output tensor, on the same device, of length
    [sections[i]] along axis 0 and of the same shape below.  When an
    output tensor does not have that length, it raises [RuntimeError]. *)
Theorem unbatch_rows_per_section
    (response_tensors : list tensor) (sections : list nat) :
  let fits_sections t := exists inner, shape t = sum_list sections :: inner in
  _unbatch_torch_tensors [] sections = Ok [] /\
  (response_tensors <> [] ->
   Forall fits_sections response_tensors ->
   exists out,
     _unbatch_torch_tensors response_tensors sections = Ok out /\
     length out = length sections /\
     forall i n,
       sections !! i = Some n ->
       exists row,
         out !! i = Some row /\
         Forall2 (fun t piece =>
                    tensor_device piece = tensor_device t /\
                    shape piece = n :: tail (shape t) /\
                    exists pieces,
                      torch_split t sections = Ok pieces /\
                      pieces !! i = Some piece)
                 response_tensors row) /\
  (forall before bad after,
      response_tensors = before ++ bad :: after ->
      Forall fits_sections before ->
      ~ fits_sections bad ->
      _unbatch_torch_tensors response_tensors sections = Raise RuntimeError).
Proof.
  intros fits_sections. split; [reflexivity|]. split.
  - intros Hsome Hall.
    destruct (unbatch_rows _ _ Hsome Hall) as (out & Hout & Hlen & Hrows).
    exists out. split; [exact Hout|]. split; [exact Hlen|].
    intros i n Hn.
    destruct (Hrows i) as (row & Hrow & Hpieces);
      [by eapply lookup_lt_Some|].
    exists row. split; [exact Hrow|].
    eapply Forall2_impl; [exact Hpieces|].
    intros t piece (pieces & Hsplit & Hpiece).
    pose proof Hsplit as (inner & Hshape & ->)%torch_split_Ok.
    destruct (split_pieces_lookup _ _ _ _ _ _ Hpiece) as (m & Hm & Hdev & Hsh).
    rewrite Hshape. simpl. split; [done|]. split; [congruence|].
    eexists. split; [exact Hsplit | exact Hpiece].
  - intros before bad after -> Hbefore Hbad.
    assert (Hraise : torch_split bad sections = Raise RuntimeError).
    { apply torch_split_raises. intros inner Hshape. apply Hbad. by exists inner. }
    unfold _unbatch_torch_tensors. rewrite unbatch_slots_app.
    destruct before as [|t ts].
    + simpl. by rewrite Hraise.
    + destruct (unbatch_rows (t :: ts) sections ltac:(done) Hbefore)
        as (out & Hout & _).
      unfold _unbatch_torch_tensors in Hout. rewrite Hout. simpl.
      by rewrite Hraise.
Qed.

(** Two output tensors for requests of one and two examples. *)
Lemma unbatch_rows_per_section_witness :
  exists out,
    _unbatch_torch_tensors
      [examples [1; 2; 3]%Z; examples [4; 5; 6]%Z] [1; 2] = Ok out /\
    length out = 2.
Proof.
  destruct (proj1 (proj2 (unbatch_rows_per_section
              [examples [1; 2; 3]%Z; examples [4; 5; 6]%Z] [1; 2])))
    as (out & Hout & Hlen & _).
  - discriminate.
  - repeat constructor; by exists [1].
  - by exists out.
Defined.

(** ** The tensors of a request and the response built for it *)

Section ExecuteSteps.
Context `{Runtime}.

Lemma torch_object_to_device_Ok source device t :
  _torch_object_to_device device_available source device = Ok t <->
  shape t = shape source /\ data t = data source /\
  match device with
  | Some d => device_available d = true /\ tensor_device t = d
  | None => tensor_device t = tensor_device source
  end.
Proof.
  destruct source as [ds ss ls], t as [dt st lt], device as [d|]; simpl.
  - unfold tensor_to. simpl. destruct (device_available d).
    + split; [by intros [= <- <- <-] | by intros (-> & -> & _ & ->)].
    + split; [discriminate | by intros (_ & _ & ? & _)].
  - split; [by intros [= <- <- <-] | by intros (-> & -> & ->)].
Qed.

(** X9. The tensor set of a request holds one tensor per configured
    input, in the configured order: the request's tensor of that name,
    with its shape and elements, on the instance's device when there is
    one and where it was otherwise.  A configured input the request does
    not carry makes the extraction raise. *)
Theorem request_tensors_in_input_order
    (self : gmap string py_value) (inputs : list io_descriptor)
    (device : option torch_device) (request : inference_request) :
  self !! "_inputs" = Some (VIo inputs) ->
  self !! "_device" = Some (VDevice device) ->
  (forall tensors,
      request_tensors_of self request = Ok tensors <->
      Forall2 (fun io t =>
                 exists named,
                   get_input_tensor_by_name request (name io) = Some named /\
                   shape t = shape (pb_value named) /\
                   data t = data (pb_value named) /\
                   match device with
                   | Some d => device_available d = true /\ tensor_device t = d
                   | None => tensor_device t = tensor_device (pb_value named)
                   end)
              inputs tensors) /\
  (forall io,
      io ∈ inputs ->
      get_input_tensor_by_name request (name io) = None ->
      is_ok (request_tensors_of self request) = false).
Proof.
  intros Hinputs Hdevice.
  assert (Hread : forall tensors,
             request_tensors_of self request = Ok tensors <->
             Forall2 (fun io t =>
                        match get_input_tensor_by_name request (name io) with
                        | Some named =>
                            _torch_object_to_device device_available
                              (pb_value named) device
                        | None => Raise AttributeError
                        end = Ok t) inputs tensors).
  { intros tensors. unfold request_tensors_of, getattr.
    rewrite Hinputs. simpl. rewrite mapM_Ok_Forall2.
    split; intros Hall; (eapply Forall2_impl; [exact Hall|]); intros io t;
      cbv beta;
      destruct (get_input_tensor_by_name request (name io)); try done;
      by rewrite Hdevice. }
  split.
  - intros tensors. rewrite Hread.
    split; intros Hall; (eapply Forall2_impl; [exact Hall|]); intros io t;
      cbv beta.
    + destruct (get_input_tensor_by_name request (name io)) as [named|];
        [|done].
      intros Hmoved%torch_object_to_device_Ok. by exists named.
    + intros (named & -> & Hmoved). by apply torch_object_to_device_Ok.
  - intros io Hio Hmissing.
    destruct (request_tensors_of self request) as [tensors|e]; [|done].
    pose proof (proj1 (Hread tensors) eq_refl) as Hrun.
    apply list_elem_of_lookup in Hio as [i Hi].
    destruct (Forall2_lookup_l _ _ _ _ _ Hrun Hi) as (t & _ & Ht).
    by rewrite Hmissing in Ht.
Qed.

Lemma response_outputs_from outputs response_tensors j n :
  j + n = length outputs ->
  length outputs <= length response_tensors ->
  mapM (fun i =>
          io ← getitem outputs i;
          tensor ← getitem response_tensors i;
          mret {| pb_name := name io; pb_value := tensor |})
       (seq j n)
  = Ok (zip_with (fun io t => {| pb_name := name io; pb_value := t |})
                 (drop j outputs) (drop j response_tensors)).
Proof.
  revert j. induction n as [|n IH]; intros j Hj Hlen.
  - rewrite drop_ge by lia. reflexivity.
  - change (seq j (S n)) with (j :: seq (S j) n). rewrite mapM_result_cons.
    destruct (lookup_lt_is_Some_2 outputs j ltac:(lia)) as [io Hio].
    destruct (lookup_lt_is_Some_2 response_tensors j ltac:(lia)) as [t Ht].
    rewrite (getitem_Some _ _ _ Hio). simpl.
    rewrite (getitem_Some _ _ _ Ht). simpl.
    rewrite IH by lia. simpl.
    by rewrite (drop_S _ _ _ Hio), (drop_S _ _ _ Ht).
Qed.

Lemma response_outputs_short outputs response_tensors j n :
  j <= length response_tensors ->
  length response_tensors < j + n ->
  j + n = length outputs ->
  mapM (fun i =>
          io ← getitem outputs i;
          tensor ← getitem response_tensors i;
          mret {| pb_name := name io; pb_value := tensor |})
       (seq j n)
  = Raise IndexError.
Proof.
  revert j. induction n as [|n IH]; intros j Hj Hshort Hlen; [lia|].
  change (seq j (S n)) with (j :: seq (S j) n). rewrite mapM_result_cons.
  destruct (lookup_lt_is_Some_2 outputs j ltac:(lia)) as [io Hio].
  rewrite (getitem_Some _ _ _ Hio). simpl.
  destruct (decide (j = length response_tensors)) as [->|Hne].
  - unfold getitem. by rewrite (proj2 (lookup_ge_None _ _)) by lia.
  - destruct (lookup_lt_is_Some_2 response_tensors j ltac:(lia)) as [t Ht].
    rewrite (getitem_Some _ _ _ Ht). simpl.
    by rewrite IH by lia.
Qed.

(** X10. The response built from the output tensors of a request pairs
    the configured outputs, in order, with the output tensors at the same
    positions, under the configured names; output tensors beyond the
    configured outputs are left out, and fewer output tensors than
    configured outputs raise [IndexError]. *)
Theorem response_pairs_outputs
    (self : gmap string py_value) (outputs : list io_descriptor)
    (response_tensors : list tensor) :
  self !! "_outputs" = Some (VIo outputs) ->
  (length outputs <= length response_tensors ->
   response_of self response_tensors
   = Ok {| output_tensors :=
             zip_with (fun io t => {| pb_name := name io; pb_value := t |})
                      outputs response_tensors |}) /\
  (length response_tensors < length outputs ->
   response_of self response_tensors = Raise IndexError).
Proof.
  intros Houtputs. unfold response_of, getattr. rewrite Houtputs. simpl.
  split; intros Hlen.
  - by rewrite (response_outputs_from outputs response_tensors 0) by done.
  - by rewrite (response_outputs_short outputs response_tensors 0) by lia.
Qed.
End ExecuteSteps.

Lemma request_tensors_in_input_order_witness :
  request_tensors_of plain_instance (example_request [5; 7]%Z)
  = Ok [examples [5; 7]%Z].
Proof.
  apply (proj1 (@request_tensors_in_input_order example_runtime plain_instance
                  [{| name := "INPUT0" |}] (Some (Device "cpu"))
                  (example_request [5; 7]%Z)
                  ltac:(vm_compute; reflexivity) ltac:(vm_compute; reflexivity))).
  repeat constructor.
  by exists {| pb_name := "INPUT0"; pb_value := examples [5; 7]%Z |}.
Defined.

Lemma response_pairs_outputs_witness :
  response_of plain_instance [examples [5]%Z; examples [6]%Z]
  = Ok (example_response [5]%Z) /\
  response_of plain_instance [] = Raise IndexError.
Proof.
  destruct (@response_pairs_outputs example_runtime plain_instance
              [{| name := "OUTPUT0" |}] [examples [5]%Z; examples [6]%Z]
              ltac:(vm_compute; reflexivity)) as [Hfull _].
  destruct (@response_pairs_outputs example_runtime plain_instance
              [{| name := "OUTPUT0" |}] []
              ltac:(vm_compute; reflexivity)) as [_ Hshort].
  split; [apply Hfull | apply Hshort]; simpl; lia.
Defined.

(** ** The calls [execute] makes *)

Lemma unbatch_slots_Ok_fits response_tensors sections rows out :
  unbatch_slots response_tensors sections rows = Ok out ->
  Forall (fun t => exists inner, shape t = sum_list sections :: inner)
         response_tensors.
Proof.
  revert rows. induction response_tensors as [|t ts IH]; intros rows; simpl;
    [constructor|].
  destruct (torch_split t sections) as [pieces|e] eqn:Hsplit; [|discriminate].
  simpl. destruct (unbatch_pieces pieces 0 rows) as [rows'|e]; [|discriminate].
  simpl. intros Hrest%IH. constructor; [|exact Hrest].
  apply torch_split_Ok in Hsplit as (inner & Hshape & _). by exists inner.
Qed.

Lemma unbatch_Ok_length response_tensors sections out :
  _unbatch_torch_tensors response_tensors sections = Ok out ->
  (response_tensors <> [] -> length out = length sections) /\
  (response_tensors = [] -> out = []).
Proof.
  intros Hrun. split.
  - intros Hsome.
    destruct (unbatch_rows _ sections Hsome (unbatch_slots_Ok_fits _ _ _ _ Hrun))
      as (out' & Hout & Hlen & _).
    congruence.
  - intros ->. by injection Hrun as <-.
Qed.

Lemma mapM_result_length {A B} (f : A -> result B) l k :
  mapM f l = Ok k -> length k = length l.
Proof. intros Hall%mapM_Ok_Forall2. symmetry. by eapply Forall2_length. Qed.

Section ExecuteCalls.
Context `{Runtime}.
Variable self : gmap string py_value.

Lemma call_model_calls input_tensors outs :
  outcome (call_model self input_tensors) = Ok outs ->
  calls (call_model self input_tensors) = [CallModel input_tensors].
Proof.
  unfold call_model. rewrite outcome_bind, calls_bind. simpl.
  destruct (getattr self "_model" ≫= as_module) as [model|e]; [|done]. simpl.
  rewrite outcome_bind, calls_bind. simpl.
  by destruct (forward model input_tensors).
Qed.

Lemma calls_model_calls input_tensors outs :
  outcome (mapM (call_model self) input_tensors) = Ok outs ->
  calls (mapM (call_model self) input_tensors) = CallModel <$> input_tensors.
Proof.
  revert outs. induction input_tensors as [|x l IH]; intros outs; [done|].
  change (mapM (call_model self) (x :: l))
    with (y ← call_model self x; k ← mapM (call_model self) l; mret (y :: k)).
  rewrite outcome_bind, calls_bind.
  destruct (outcome (call_model self x)) as [y|e] eqn:Hx; [|done].
  rewrite (call_model_calls _ _ Hx). simpl.
  rewrite outcome_bind, calls_bind.
  destruct (outcome (mapM (call_model self) l)) as [k|e] eqn:Hrest; [|done].
  simpl. intros _. by rewrite (IH k), app_nil_r.
Qed.

(** X11. Without batching, when [execute] returns, the calls it has made
    are the calls of the model, one per request and in request order, each
    on the tensor set of its request. *)
Theorem unbatched_execute_model_calls
    (requests : list inference_request) (responses : list inference_response) :
  self !! "_support_batching" = Some (VBool false) ->
  outcome (execute self requests) = Ok responses ->
  exists requests_tensors,
    mapM (request_tensors_of self) requests = Ok requests_tensors /\
    length requests_tensors = length requests /\
    calls (execute self requests) = CallModel <$> requests_tensors.
Proof.
  intros Hoff. rewrite (execute_unbatched_outcome self Hoff).
  unfold execute. rewrite (support_batching_off self Hoff).
  destruct (mapM (request_tensors_of self) requests)
    as [requests_tensors|e] eqn:Htensors; [|discriminate].
  simpl. intros Hrun. exists requests_tensors.
  split; [done|]. split; [by eapply mapM_result_length|].
  repeat (rewrite calls_bind; simpl).
  rewrite <- outcome_mapM in Hrun.
  destruct (outcome (mapM (call_model self) requests_tensors))
    as [outs|e] eqn:Hcalls; [|discriminate].
  by rewrite (calls_model_calls _ _ Hcalls), app_nil_r.
Qed.

Hypothesis batching_on : self !! "_support_batching" = Some (VBool true).
Hypothesis batcher : self !! "_batcher" = Some (VBatcher _batch_torch_tensors).
Hypothesis unbatcher :
  self !! "_unbatcher" = Some (VUnbatcher _unbatch_torch_tensors).

Lemma execute_batched_outcome requests :
  outcome (execute self requests)
  = (requests_tensors ← mapM (request_tensors_of self) requests;
     merged ← _batch_torch_tensors requests_tensors;
     responses_tensors ←
       mapM (fun x => outcome (call_model self x)) merged.1;
     response_tensors ← getitem responses_tensors 0;
     rows ← _unbatch_torch_tensors response_tensors merged.2;
     mapM (response_of self) rows).
Proof.
  unfold execute, getattr. rewrite batching_on, batcher, unbatcher.
  rewrite outcome_bind. simpl.
  destruct (mapM (request_tensors_of self) requests) as [requests_tensors|e];
    [|done].
  simpl. rewrite ?outcome_bind. simpl.
  destruct (_batch_torch_tensors requests_tensors) as [merged|e]; [|done].
  simpl. rewrite ?outcome_bind. simpl. rewrite outcome_mapM.
  destruct (mapM (fun x => outcome (call_model self x)) merged.1)
    as [responses_tensors|e]; [|done].
  simpl. rewrite ?outcome_bind. simpl.
  destruct (getitem responses_tensors 0) as [response_tensors|e]; [|done].
  simpl. rewrite ?outcome_bind. simpl.
  by destruct (_unbatch_torch_tensors response_tensors merged.2).
Qed.
End ExecuteCalls.

Section BatchedExecute.
Context `{Runtime}.
Variable self : gmap string py_value.
Hypothesis batching_on : self !! "_support_batching" = Some (VBool true).
Hypothesis batcher : self !! "_batcher" = Some (VBatcher _batch_torch_tensors).
Hypothesis unbatcher :
  self !! "_unbatcher" = Some (VUnbatcher _unbatch_torch_tensors).

(** X12. With batching, when [execute] returns, it has taken the tensor
    sets of the requests, batched them into one merged set with one
    section per request, called the model once, on the merged set,
    unbatched what the model returned by the sections and built the
    responses from the rows; its calls are the batcher, the model and the
    unbatcher, once each and in this order.  The responses are as many as
    the requests when the model returned at least one tensor, and none at
    all when it returned no tensor. *)
Theorem batched_execute_pipeline
    (requests : list inference_request) (responses : list inference_response) :
  outcome (execute self requests) = Ok responses ->
  exists requests_tensors merged sections outs rows,
    mapM (request_tensors_of self) requests = Ok requests_tensors /\
    _batch_torch_tensors requests_tensors = Ok ([merged], sections) /\
    outcome (call_model self merged) = Ok outs /\
    _unbatch_torch_tensors outs sections = Ok rows /\
    mapM (response_of self) rows = Ok responses /\
    calls (execute self requests)
    = [CallBatcher requests_tensors; CallModel merged;
       CallUnbatcher outs sections] /\
    (outs <> [] -> length responses = length requests) /\
    (outs = [] -> responses = []).
Proof.
  rewrite (execute_batched_outcome self batching_on batcher unbatcher).
  destruct (mapM (request_tensors_of self) requests)
    as [requests_tensors|e] eqn:Htensors; [|discriminate]. simpl.
  destruct (_batch_torch_tensors requests_tensors)
    as [[outer sections]|e] eqn:Hbatch; [|discriminate]. simpl.
  destruct (batch_Ok_singleton _ _ _ Hbatch) as ([merged ->] & Hsections).
  rewrite mapM_result_cons.
  destruct (outcome (call_model self merged)) as [outs|e] eqn:Hmodel;
    [|discriminate]. simpl.
  destruct (_unbatch_torch_tensors outs sections) as [rows|e] eqn:Hunbatch;
    [|discriminate]. simpl.
  intros Hresponses.
  exists requests_tensors, merged, sections, outs, rows.
  split; [done|]. split; [done|]. split; [done|]. split; [done|].
  split; [done|].
  pose proof (mapM_result_length _ _ _ Htensors) as Hlen1.
  pose proof (mapM_result_length _ _ _ Hresponses) as Hlen2.
  destruct (unbatch_Ok_length _ _ _ Hunbatch) as [Hfull Hnone].
  split; [|split].
  - unfold execute, getattr. rewrite batching_on, batcher, unbatcher.
    rewrite Htensors. repeat (rewrite calls_bind; simpl).
    rewrite Hbatch. simpl. repeat (rewrite calls_bind; simpl).
    rewrite (call_model_calls _ _ _ Hmodel), Hmodel. simpl.
    repeat (rewrite calls_bind; simpl).
    rewrite outcome_bind, Hmodel. simpl.
    repeat (rewrite calls_bind; simpl).
    by rewrite Hunbatch.
  - intros Hsome. rewrite Hlen2, (Hfull Hsome). lia.
  - intros Hempty. rewrite (Hnone Hempty) in Hresponses.
    by injection Hresponses as <-.
Qed.
End BatchedExecute.

Lemma batch_single_request request_tensors first n inner :
  request_tensors !! 0 = Some first ->
  shape first = n :: inner ->
  _batch_torch_tensors [request_tensors] = Ok ([request_tensors], [n]).
Proof.
  intros Hfirst Hshape. unfold _batch_torch_tensors. simpl.
  rewrite batch_request_first. simpl.
  rewrite (getitem_Some _ _ _ Hfirst). simpl.
  unfold size. by rewrite Hshape.
Qed.

Lemma unbatch_single_request response_tensors n :
  response_tensors <> [] ->
  Forall (fun t => tensor_wf t /\ exists inner, shape t = n :: inner)
         response_tensors ->
  _unbatch_torch_tensors response_tensors [n] = Ok [response_tensors].
Proof.
  intros Hsome Hall. unfold _unbatch_torch_tensors.
  destruct Hall as [|t ts [Hwf [inner Hshape]] Hrest]; [done|].
  simpl. rewrite (split_whole t n inner) by assumption. simpl.
  by rewrite unbatch_single_section.
Qed.

Section BatchedSingleRequest.
Context `{Runtime}.
Variable self : gmap string py_value.
Hypothesis batching_on : self !! "_support_batching" = Some (VBool true).
Hypothesis batcher : self !! "_batcher" = Some (VBatcher _batch_torch_tensors).
Hypothesis unbatcher :
  self !! "_unbatcher" = Some (VUnbatcher _unbatch_torch_tensors).

(** X13. With batching, a call with one request gives the response that
    serving the request without batching gives, when the slot-0 input
    tensor of the request has [n] examples and the model returns at least
    one tensor, each of [n] examples and holding as many elements as its
    shape says. *)
Theorem batched_single_request_serves
    (request : inference_request) (tensors outs : list tensor)
    (first : tensor) (n : nat) (inner : list nat) :
  request_tensors_of self request = Ok tensors ->
  tensors !! 0 = Some first ->
  shape first = n :: inner ->
  outcome (call_model self tensors) = Ok outs ->
  outs <> [] ->
  Forall (fun t => tensor_wf t /\ exists inner', shape t = n :: inner') outs ->
  outcome (execute self [request]) = (fun r => [r]) <$> serve self request.
Proof.
  intros Htensors Hfirst Hshape Hmodel Hsome Houts.
  rewrite (execute_batched_outcome self batching_on batcher unbatcher).
  unfold serve. rewrite mapM_result_cons, Htensors. simpl.
  rewrite (batch_single_request _ _ _ _ Hfirst Hshape). simpl.
  rewrite ?mapM_result_cons, Hmodel. simpl.
  rewrite (unbatch_single_request _ _ Hsome Houts). simpl.
  rewrite ?mapM_result_cons.
  by destruct (response_of self outs).
Qed.
End BatchedSingleRequest.

Lemma batched_single_request_serves_witness :
  outcome (execute batching_instance [example_request [5; 7]%Z])
  = Ok [example_response [5; 7]%Z].
Proof.
  rewrite (@batched_single_request_serves example_runtime batching_instance
             ltac:(vm_compute; reflexivity) ltac:(vm_compute; reflexivity)
             ltac:(vm_compute; reflexivity)
             (example_request [5; 7]%Z) [examples [5; 7]%Z]
             [examples [5; 7]%Z] (examples [5; 7]%Z) 2 [1]).
  - vm_compute. reflexivity.
  - vm_compute. reflexivity.
  - reflexivity.
  - reflexivity.
  - vm_compute. reflexivity.
  - discriminate.
  - repeat constructor. by exists [1].
Defined.

Lemma batched_execute_pipeline_witness :
  calls (execute batching_instance [example_request [5; 7]%Z])
  = [CallBatcher [[examples [5; 7]%Z]]; CallModel [examples [5; 7]%Z];
     CallUnbatcher [examples [5; 7]%Z] [2]].
Proof.
  destruct (@batched_execute_pipeline example_runtime batching_instance
              ltac:(vm_compute; reflexivity) ltac:(vm_compute; reflexivity)
              ltac:(vm_compute; reflexivity)
              [example_request [5; 7]%Z] [example_response [5; 7]%Z]
              ltac:(vm_compute; reflexivity))
    as (rts & merged & sections & outs & rows
        & Hrts & Hbatch & Hmodel & _ & _ & Hcalls & _).
  rewrite Hcalls.
  vm_compute in Hrts. injection Hrts as <-.
  vm_compute in Hbatch. injection Hbatch as <- <-.
  vm_compute in Hmodel. injection Hmodel as <-.
  reflexivity.
Defined.

Lemma unbatched_execute_model_calls_witness :
  calls (execute plain_instance [example_request [5]%Z; example_request [7]%Z])
  = [CallModel [examples [5]%Z]; CallModel [examples [7]%Z]].
Proof.
  destruct (@unbatched_execute_model_calls example_runtime plain_instance
              [example_request [5]%Z; example_request [7]%Z]
              [example_response [5]%Z; example_response [7]%Z]
              ltac:(vm_compute; reflexivity) ltac:(vm_compute; reflexivity))
    as (rts & Hrts & _ & Hcalls).
  rewrite Hcalls. injection Hrts as <-. reflexivity.
Defined.

(** ** The instance [initialize] leaves *)

Section InitializeOutcome.
Context `{Runtime}.

Lemma ensures_setattr k (P : py_value -> Prop) v :
  P v -> ensures k P (setattr k v).
Proof. intros HP w a _. exists v. simpl. by rewrite lookup_insert_eq. Qed.

Lemma ensures_bind_l {A B} k P (m : action world A) (f : A -> action world B) :
  ensures k P m -> (forall a, preserves k (f a)) -> ensures k P (m ≫= f).
Proof.
  intros Hm Hf w b. unfold mbind, action_bind.
  specialize (Hm w). destruct (m w) as [w1 [a|e]]; simpl in *; [|done].
  intros _. rewrite Hf. by apply (Hm a).
Qed.

Lemma ensures_bind_r {A B} k P (m : action world A) (f : A -> action world B) :
  (forall a, ensures k P (f a)) -> ensures k P (m ≫= f).
Proof.
  intros Hf w b. unfold mbind, action_bind.
  destruct (m w) as [w1 [a|e]]; simpl; [|done]. apply Hf.
Qed.

Lemma ensures_lift_bind {A B} k P (r : result A) (f : A -> action world B) :
  (forall a, r = Ok a -> ensures k P (f a)) -> ensures k P (lift r ≫= f).
Proof.
  intros Hf w b. unfold mbind, action_bind, lift. simpl.
  destruct r as [a|e]; simpl; [|done]. by apply Hf.
Qed.

Lemma torch_compile_Ok {F} (f g : F) params :
  torch_compile f params = Ok g -> g = f.
Proof. unfold torch_compile. by destruct (compile_options_ok params); intros [= ->]. Qed.

Ltac preserves_tac :=
  repeat first
    [ apply preserves_bind; [|intros ?]
    | apply preserves_setattr; discriminate
    | apply preserves_lift | apply preserves_on_torch | apply preserves_ret
    | match goal with |- preserves _ (if ?b then _ else _) => destruct b end ].

(** Walks an action to the assignment of the attribute. *)
Ltac ensures_tac :=
  first
    [ apply ensures_setattr; solve [eauto]
    | apply ensures_bind_l;
      [solve [ensures_tac] | by (intros; preserves_tac)]
    | apply ensures_lift_bind;
      let a := fresh "a" in
      let Hr := fresh "Hr" in
      intros a Hr; try (apply torch_compile_Ok in Hr; subst a); ensures_tac
    | apply ensures_bind_r; intros ?; ensures_tac
    | match goal with
      | |- ensures _ _ (if ?b then _ else _) => destruct b; ensures_tac
      end ].

Lemma load_ensures_model args configured model_path :
  ensures "_model" (fun v => exists m, v = VModule m)
    (if negb (_is_py_class_model model_path)
     then load_torchscript model_path configured.1
     else load_py_class (model_name args) model_path configured.1 configured.2).
Proof.
  unfold load_torchscript, load_py_class. ensures_tac.
Qed.

Lemma load_preserves args configured model_path k :
  k ∉ ["_model"; "_model_module"; "_model_class"; "_raw_model"] ->
  preserves k
    (if negb (_is_py_class_model model_path)
     then load_torchscript model_path configured.1
     else load_py_class (model_name args) model_path configured.1 configured.2).
Proof.
  intros Hk. unfold load_torchscript, load_py_class.
  repeat first
    [ apply preserves_bind; [|intros ?]
    | apply preserves_setattr; intros ->; apply Hk; by repeat constructor
    | apply preserves_lift | apply preserves_ret
    | match goal with |- preserves _ (if ?b then _ else _) => destruct b end ].
Qed.

Lemma initialize_ensures args k P :
  k ∉ ["_model"; "_model_module"; "_model_class"; "_raw_model"] ->
  ensures k P (configure args) -> ensures k P (initialize args).
Proof.
  intros Hk Hconfigure. unfold initialize.
  apply ensures_bind_l; [exact Hconfigure|].
  intros configured. cbv zeta.
  apply preserves_bind; [apply preserves_lift|].
  intros model_path. by apply load_preserves.
Qed.

Ltac not_among :=
  let Hin := fresh in
  intros Hin;
  repeat (apply elem_of_cons in Hin as [Hin|Hin]; [discriminate Hin|]);
  by apply elem_of_nil in Hin.

(** X14. After a successful [initialize] the instance holds what
    [execute] reads: a model handle, the names of the configured inputs
    and outputs in order, the device the kind and the ordinal resolve to,
    the batching flag, which is set exactly for a positive maximum batch
    size, with batching the batch and unbatch functions as batcher and
    unbatcher, and the inference-mode object. *)
Theorem initialize_ready (args : initialize_args) (w : world) :
  (initialize args w).2 = Ok () ->
  let config := model_config_arg args in
  let instance := self (initialize args w).1 in
  (exists m, instance !! "_model" = Some (VModule m)) /\
  instance !! "_inputs" = Some (VIo (_parse_io_config (input config))) /\
  instance !! "_outputs" = Some (VIo (_parse_io_config (output config))) /\
  (exists device,
      instance !! "_device" = Some (VDevice device) /\
      _get_device device_ok (model_instance_kind args)
        (model_instance_device_id args) = Ok device) /\
  instance !! "_support_batching"
  = Some (VBool (0 <? max_batch_size config)%Z) /\
  ((0 < max_batch_size config)%Z ->
   instance !! "_batcher" = Some (VBatcher _batch_torch_tensors) /\
   instance !! "_unbatcher" = Some (VUnbatcher _unbatch_torch_tensors)) /\
  instance !! "_infer_mode" = Some VInferMode.
Proof.
  intros Hok config instance.
  assert (Hfrom : forall k P, ensures k P (initialize args) ->
                              exists v, instance !! k = Some v /\ P v).
  { intros k P Hensures. exact (Hensures w () Hok). }
  assert (Hvalue : forall k v, ensures k (eq v) (initialize args) ->
                               instance !! k = Some v).
  { intros k v (v' & Hv & ->)%Hfrom. exact Hv. }
  split; [|split; [|split; [|split; [|split; [|split]]]]].
  - destruct (Hfrom "_model" (fun v => exists m, v = VModule m))
      as (v & Hv & m & ->); [|by exists m].
    unfold initialize. apply ensures_bind_r. intros configured. cbv zeta.
    apply ensures_bind_r. intros model_path. apply load_ensures_model.
  - apply Hvalue, initialize_ensures; [not_among|].
    unfold configure. ensures_tac.
  - apply Hvalue, initialize_ensures; [not_among|].
    unfold configure. ensures_tac.
  - destruct (Hfrom "_device"
                (fun v => exists device,
                     v = VDevice device /\
                     _get_device device_ok (model_instance_kind args)
                       (model_instance_device_id args) = Ok device))
      as (v & Hv & device & -> & Hdevice); [|by exists device].
    apply initialize_ensures; [not_among|].
    unfold configure. ensures_tac.
  - apply initialize_support_batching.
  - intros Hpos%Z.ltb_lt. split.
    + apply Hvalue, initialize_ensures; [not_among|].
      unfold configure. fold config. rewrite Hpos. cbv match. ensures_tac.
    + apply Hvalue, initialize_ensures; [not_among|].
      unfold configure. fold config. rewrite Hpos. cbv match. ensures_tac.
  - apply Hvalue, initialize_ensures; [not_among|].
    unfold configure. ensures_tac.
Qed.
End InitializeOutcome.

Lemma initialize_ready_witness :
  batching_instance !! "_batcher" = Some (VBatcher _batch_torch_tensors) /\
  exists m, batching_instance !! "_model" = Some (VModule m).
Proof.
  destruct (@initialize_ready example_runtime (example_args 8)
              (fresh_world example_runtime ()) ltac:(vm_compute; reflexivity))
    as (Hmodel & _ & _ & _ & _ & Hbatcher & _).
  split; [|exact Hmodel]. apply Hbatcher. reflexivity.
Defined.

(** ** The two loading paths *)

Section LoadingPaths.
Context `{Runtime}.

Ltac preserves_tac :=
  repeat first
    [ apply preserves_bind; [|intros ?]
    | apply preserves_setattr; discriminate
    | apply preserves_lift | apply preserves_on_torch | apply preserves_ret
    | match goal with |- preserves _ (if ?b then _ else _) => destruct b end ].

Lemma keeps_on_failure_setattr k attr v : keeps_on_failure k (setattr attr v).
Proof. by intros w e. Qed.

Lemma keeps_on_failure_bind {A B} k
    (m : action world A) (f : A -> action world B) :
  preserves k m -> (forall a, keeps_on_failure k (f a)) ->
  keeps_on_failure k (m ≫= f).
Proof.
  intros Hm Hf w e. unfold mbind, action_bind.
  specialize (Hm w). destruct (m w) as [w1 [a|e']]; simpl in *.
  - intros Hraise. by rewrite (Hf a w1 e Hraise).
  - by intros _.
Qed.

Lemma keeps_on_failure_lift_bind {A B} k
    (r : result A) (f : A -> action world B) :
  (forall a, r = Ok a -> keeps_on_failure k (f a)) ->
  keeps_on_failure k (lift r ≫= f).
Proof.
  intros Hf w e. unfold mbind, action_bind, lift. simpl.
  destruct r as [a|e']; simpl; [by apply Hf | done].
Qed.

Lemma preserves_lift_bind {A B} k (r : result A) (f : A -> action world B) :
  (forall a, r = Ok a -> preserves k (f a)) -> preserves k (lift r ≫= f).
Proof.
  intros Hf w. unfold mbind, action_bind, lift. simpl.
  destruct r as [a|e]; simpl; [by apply Hf | done].
Qed.

Lemma load_py_class_keeps_model model_name model_path device params :
  keeps_on_failure "_model"
    (load_py_class model_name model_path device params).
Proof.
  unfold load_py_class.
  repeat first
    [ apply keeps_on_failure_setattr
    | apply keeps_on_failure_bind; [by preserves_tac | intros ?] ].
Qed.

Lemma configure_keeps k args :
  k ∈ ["_model"; "_model_module"; "_model_class"; "_raw_model"] ->
  preserves k (configure args).
Proof.
  intros Hk. apply configure_preserves. intros Hin.
  repeat (apply elem_of_cons in Hk as [->|Hk];
          [repeat (apply elem_of_cons in Hin as [Hin|Hin];
                   [discriminate Hin|]);
           by apply elem_of_nil in Hin|]).
  by apply elem_of_nil in Hk.
Qed.

(** X15. When the model that is located is class-based, or none is
    located, a failing [initialize] leaves the model handle of the
    instance as it was: the handle is assigned last, once the module is
    loaded, the class found and instantiated, the parameters restored and
    the instance moved, set to evaluation mode and compiled. *)
Theorem class_based_failure_keeps_model
    (args : initialize_args) (w : world) (e : exn) :
  (forall model_path,
      _get_model_path get_model_dir os_path_exists py_str
        (model_config_arg args) = Ok model_path ->
      _is_py_class_model model_path = true) ->
  (initialize args w).2 = Raise e ->
  self (initialize args w).1 !! "_model" = self w !! "_model".
Proof.
  intros Hclass. revert w e.
  change (keeps_on_failure "_model" (initialize args)).
  unfold initialize.
  apply keeps_on_failure_bind;
    [apply configure_keeps; by repeat constructor|].
  intros configured. cbv zeta.
  apply keeps_on_failure_lift_bind. intros model_path Hpath.
  rewrite (Hclass model_path Hpath). simpl.
  apply load_py_class_keeps_model.
Qed.

(** X16. When the model that is located is not class-based,
    [initialize] leaves the module, class and raw-model attributes of the
    instance as they were.  The handle is assigned as soon as the
    TorchScript file is loaded: when moving the loaded model to the device
    raises, [initialize] raises the same and the instance keeps the handle
    of the model that was loaded. *)
Theorem torchscript_load (args : initialize_args) (w : world)
    (model_path : string) :
  _get_model_path get_model_dir os_path_exists py_str (model_config_arg args)
  = Ok model_path ->
  _is_py_class_model model_path = false ->
  (forall k,
      k ∈ ["_model_module"; "_model_class"; "_raw_model"] ->
      self (initialize args w).1 !! k = self w !! k) /\
  (forall w1 configured model e,
      configure args w = (w1, Ok configured) ->
      jit_load model_path = Ok model ->
      module_to_device model configured.1 = Raise e ->
      initialize args w
      = ({| self := <["_model" := VModule model]> (self w1);
            torch := torch w1 |}, Raise e)).
Proof.
  intros Hpath Hscript. split.
  - intros k Hk. revert w. change (preserves k (initialize args)).
    unfold initialize. apply preserves_bind.
    { apply configure_keeps. by right. }
    intros configured. cbv zeta.
    apply preserves_lift_bind. intros p Hp.
    rewrite Hpath in Hp. injection Hp as <-. rewrite Hscript. simpl.
    unfold load_torchscript.
    repeat (apply elem_of_cons in Hk as [->|Hk]; [by preserves_tac|]).
    by apply elem_of_nil in Hk.
  - intros w1 configured model e Hconfigure Hload Hmove.
    unfold initialize, mbind, action_bind. rewrite Hconfigure.
    unfold lift. rewrite Hpath, Hscript. simpl.
    unfold load_torchscript, mbind, action_bind, lift. rewrite Hload. simpl.
    by rewrite Hmove.
Qed.
End LoadingPaths.

(** ** Inference mode *)

Section InferenceMode.
Context `{Runtime}.

Lemma keeps_torch_setattr attr v : keeps_torch (setattr attr v).
Proof. by intros w. Qed.

Lemma keeps_torch_lift {A} (r : result A) : keeps_torch (lift r : action world A).
Proof. by intros w. Qed.

Lemma keeps_torch_ret {A} (a : A) : keeps_torch (mret a : action world A).
Proof. by intros w. Qed.

Lemma keeps_torch_bind {A B} (m : action world A) (f : A -> action world B) :
  keeps_torch m -> (forall a, keeps_torch (f a)) -> keeps_torch (m ≫= f).
Proof.
  intros Hm Hf w. unfold mbind, action_bind.
  specialize (Hm w). destruct (m w) as [w1 [a|e]]; simpl in *; [|done].
  by rewrite Hf.
Qed.

Ltac keeps_torch_tac :=
  repeat first
    [ apply keeps_torch_bind; [|intros ?]
    | apply keeps_torch_setattr | apply keeps_torch_lift
    | apply keeps_torch_ret
    | match goal with |- keeps_torch (if ?b then _ else _) => destruct b end ].

Lemma load_keeps_torch args configured model_path :
  keeps_torch
    (if negb (_is_py_class_model model_path)
     then load_torchscript model_path configured.1
     else load_py_class (model_name args) model_path configured.1 configured.2).
Proof. unfold load_torchscript, load_py_class. keeps_torch_tac. Qed.

Lemma initialize_torch args w :
  torch (initialize args w).1 = torch (configure args w).1.
Proof.
  unfold initialize, mbind at 1, action_bind at 1.
  destruct (configure args w) as [w1 [configured|e]]; [|done].
  cbv zeta. simpl.
  assert (Hrest : keeps_torch
            (model_path ← lift (_get_model_path get_model_dir os_path_exists
                                  py_str (model_config_arg args));
             if negb (_is_py_class_model model_path)
             then load_torchscript model_path configured.1
             else load_py_class (model_name args) model_path
                    configured.1 configured.2)).
  { apply keeps_torch_bind; [apply keeps_torch_lift|].
    intros model_path. apply load_keeps_torch. }
  apply Hrest.
Qed.

Lemma initialize_Ok_configure args w :
  (initialize args w).2 = Ok () -> exists configured, (configure args w).2 = Ok configured.
Proof.
  unfold initialize, mbind at 1, action_bind at 1.
  destruct (configure args w) as [w1 [configured|e]]; [eauto | done].
Qed.

Lemma configure_torch args w configured :
  (configure args w).2 = Ok configured ->
  exists t1 msg,
    _set_torch_parallelism (model_config_arg args) (torch w) = (t1, Ok msg) /\
    torch (configure args w).1 = inference_mode_enter t1.
Proof.
  unfold configure, mbind, action_bind, setattr, on_torch, lift, mret,
    action_ret. simpl.
  destruct (_set_torch_parallelism (model_config_arg args) (torch w))
    as [t1 [msg|e]]; simpl; [|done].
  intros Hok. exists t1, msg. split; [done|]. revert Hok.
  destruct (_get_device _ _ _) as [device|e]; simpl; [|done].
  destruct (_get_torch_compile_params _ _) as [params|e]; simpl; [|done].
  destruct (0 <? max_batch_size (model_config_arg args))%Z; simpl; [|done].
  unfold torch_compile.
  by destruct (compile_options_ok params).
Qed.

Lemma initialize_infer_mode args :
  ensures "_infer_mode" (eq VInferMode) (initialize args).
Proof.
  unfold initialize. apply ensures_bind_l.
  - unfold configure.
    do 5 (apply ensures_bind_r; intros ?).
    apply ensures_bind_r; intros ?.
    apply ensures_bind_l; [by apply ensures_setattr|].
    intros ?.
    repeat first
      [ apply preserves_bind; [|intros ?]
      | apply preserves_setattr; discriminate
      | apply preserves_lift | apply preserves_on_torch | apply preserves_ret
      | match goal with |- preserves _ (if ?b then _ else _) => destruct b end ].
  - intros configured. cbv zeta.
    apply preserves_bind; [apply preserves_lift|]. intros model_path.
    unfold load_torchscript, load_py_class.
    repeat first
      [ apply preserves_bind; [|intros ?]
      | apply preserves_setattr; discriminate
      | apply preserves_lift | apply preserves_ret
      | match goal with |- preserves _ (if ?b then _ else _) => destruct b end ].
Qed.

(** X17. [finalize] on an instance without the inference-mode object
    raises [AttributeError] and changes nothing.  A successful
    [initialize] has applied the parallelism settings and then entered
    inference mode once, and nothing after that touches the runtime's
    global state; [finalize] after it succeeds, leaves inference mode and
    leaves the instance as it is. *)
Theorem inference_mode_scope (args : initialize_args) (w : world) :
  (self w !! "_infer_mode" = None -> finalize w = (w, Raise AttributeError)) /\
  ((initialize args w).2 = Ok () ->
   exists t1 msg,
     _set_torch_parallelism (model_config_arg args) (torch w) = (t1, Ok msg) /\
     torch (initialize args w).1 = inference_mode_enter t1 /\
     finalize (initialize args w).1
     = ({| self := self (initialize args w).1;
           torch := inference_mode_exit (inference_mode_enter t1) |}, Ok ())).
Proof.
  split.
  - intros Hunset. unfold finalize, getattr. by rewrite Hunset.
  - intros Hok.
    destruct (initialize_Ok_configure _ _ Hok) as [configured Hconfigure].
    destruct (configure_torch _ _ _ Hconfigure) as (t1 & msg & Hset & Htorch).
    exists t1, msg. split; [exact Hset|].
    rewrite <- initialize_torch in Htorch. split; [exact Htorch|].
    destruct (initialize_infer_mode args w () Hok) as (v & Hv & <-).
    unfold finalize, getattr. rewrite Hv.
    unfold on_torch. by rewrite Htorch.
Qed.
End InferenceMode.

Lemma inference_mode_scope_witness :
  @finalize example_runtime (fresh_world example_runtime ())
  = (fresh_world example_runtime (), Raise AttributeError) /\
  (@finalize example_runtime
     (initialize (example_args 0) (fresh_world example_runtime ())).1).2
  = Ok ().
Proof.
  destruct (@inference_mode_scope example_runtime (example_args 0)
              (fresh_world example_runtime ())) as [Hfresh Hdone].
  split; [by apply Hfresh|].
  destruct Hdone as (t1 & msg & _ & _ & ->); [vm_compute; reflexivity|].
  reflexivity.
Defined.

Lemma class_based_failure_keeps_model_witness :
  let w := @initialize class_dir_runtime (example_args 0)
             (fresh_world class_dir_runtime ()) in
  w.2 = Raise no_model_class /\ self w.1 !! "_model" = None.
Proof.
  intros w. split; [vm_compute; reflexivity|].
  unfold w.
  rewrite (@class_based_failure_keeps_model class_dir_runtime
             (example_args 0) (fresh_world class_dir_runtime ())
             no_model_class).
  - reflexivity.
  - intros model_path. vm_compute. by intros [= <-].
  - vm_compute. reflexivity.
Defined.

Lemma torchscript_load_witness :
  let w := @initialize stuck_module_runtime (example_args 0)
             (fresh_world stuck_module_runtime ()) in
  w.2 = Raise RuntimeError /\
  self w.1 !! "_model" = Some (@VModule stuck_module_runtime ()) /\
  self w.1 !! "_raw_model" = None.
Proof.
  intros w.
  destruct (@torchscript_load stuck_module_runtime (example_args 0)
              (fresh_world stuck_module_runtime ())
              "/models/net/1/model.pt"
              ltac:(vm_compute; reflexivity) ltac:(vm_compute; reflexivity))
    as [Hkeeps Hstuck].
  pose proof (Hstuck
                (@configure stuck_module_runtime (example_args 0)
                   (fresh_world stuck_module_runtime ())).1
                (Some (Device "cpu"), JObject []) () RuntimeError
                ltac:(vm_compute; reflexivity) eq_refl eq_refl) as Hrun.
  fold w in Hrun.
  split; [by rewrite Hrun|]. split.
  - rewrite Hrun. simpl. by rewrite lookup_insert_eq.
  - unfold w. rewrite Hkeeps; [reflexivity|]. by repeat constructor.
Defined.

(** ** Without batching *)

Section WithoutBatching.
Context `{Runtime}.

(** X18. With a maximum batch size of at most 0, [initialize] leaves the
    batcher and the unbatcher of the instance as they were: on a fresh
    instance none is made. *)
Theorem initialize_without_batcher (args : initialize_args) (w : world) :
  (max_batch_size (model_config_arg args) <= 0)%Z ->
  self (initialize args w).1 !! "_batcher" = self w !! "_batcher" /\
  self (initialize args w).1 !! "_unbatcher" = self w !! "_unbatcher".
Proof.
  intros Hsize%Z.ltb_ge.
  assert (Hkeeps : forall k, k = "_batcher" \/ k = "_unbatcher" ->
                             preserves k (initialize args)).
  { intros k Hk. unfold initialize. apply preserves_bind.
    - unfold configure. rewrite Hsize. cbv match.
      repeat first
        [ apply preserves_bind; [|intros ?]
        | apply preserves_setattr; by destruct Hk as [-> | ->]
        | apply preserves_lift | apply preserves_on_torch
        | apply preserves_ret ].
    - intros configured. cbv zeta.
      apply preserves_bind; [apply preserves_lift|]. intros model_path.
      apply load_preserves.
      destruct Hk as [-> | ->]; intros Hin;
        repeat (apply elem_of_cons in Hin as [Hin|Hin]; [discriminate Hin|]);
        by apply elem_of_nil in Hin. }
  split; apply Hkeeps; auto.
Qed.
End WithoutBatching.

Lemma initialize_without_batcher_witness :
  plain_instance !! "_batcher" = None.
Proof.
  exact (proj1 (@initialize_without_batcher example_runtime (example_args 0)
                  (fresh_world example_runtime ()) ltac:(simpl; lia))).
Defined.

(** ** Where the located model lies *)



(** ** Requests that cannot be served *)

Section ExtractionFirst.
Context `{Runtime}.

(** X20. [execute] takes the tensors of all requests before it calls
    anything: when that raises for some request, [execute] raises the same
    and neither the batcher nor the model has been called, with or without
    batching.  With batching, when the batcher raises, [execute] raises
    the same and the model has not been called. *)
Theorem execute_extracts_first
    (self : gmap string py_value) (requests : list inference_request) :
  (forall e,
      mapM (request_tensors_of self) requests = Raise e ->
      execute self requests = Traced [] (Raise e)) /\
  (forall requests_tensors e,
      self !! "_support_batching" = Some (VBool true) ->
      self !! "_batcher" = Some (VBatcher _batch_torch_tensors) ->
      mapM (request_tensors_of self) requests = Ok requests_tensors ->
      _batch_torch_tensors requests_tensors = Raise e ->
      execute self requests
      = Traced [CallBatcher requests_tensors] (Raise e)).
Proof.
  split.
  - intros e Hraise. unfold execute. by rewrite Hraise.
  - intros requests_tensors e Hon Hbatcher Htensors Hraise.
    unfold execute, getattr. rewrite Htensors, Hon, Hbatcher. simpl.
    unfold mbind, traced_bind. simpl. by rewrite Hraise.
Qed.
End ExtractionFirst.

(** A request without its input; and, with batching, two requests whose
    tensors differ below axis 0. *)
Lemma execute_extracts_first_witness :
  execute plain_instance
    [example_request [5]%Z; {| request_inputs := [] |}]
  = Traced [] (Raise AttributeError) /\
  let wide := {| tensor_device := Device "cpu"; shape := [1; 2];
                 data := [7; 8]%Z |} in
  let requests :=
    [example_request [5]%Z;
     {| request_inputs := [{| pb_name := "INPUT0"; pb_value := wide |}] |}] in
  execute batching_instance requests
  = Traced [CallBatcher [[examples [5]%Z]; [wide]]] (Raise RuntimeError).
Proof.
  split.
  - apply (proj1 (@execute_extracts_first example_runtime plain_instance _)).
    vm_compute. reflexivity.
  - intros wide requests.
    apply (proj2 (@execute_extracts_first example_runtime batching_instance
                    requests));
      vm_compute; reflexivity.
Defined.

(** ** Requests that cannot be joined *)

Lemma batch_request_checks request_tensors j batch_tensors merged :
  batch_request request_tensors j batch_tensors = Ok merged ->
  (exists extra, merged = batch_tensors ++ extra) /\
  forall i t t',
    request_tensors !! i = Some t' ->
    batch_tensors !! (j + i) = Some t ->
    is_ok (torch_cat t t') = true.
Proof.
  revert j batch_tensors.
  induction request_tensors as [|x xs IH]; intros j batch_tensors; simpl.
  - intros [= <-]. split; [exists []; by rewrite app_nil_r | done].
  - case_bool_decide as Hj.
    + destruct (lookup_lt_is_Some_2 batch_tensors j Hj) as [tensor Htensor].
      rewrite (getitem_Some _ _ _ Htensor). simpl.
      destruct (torch_cat tensor x) as [joined|e] eqn:Hcat; [|discriminate].
      simpl. intros [Hextends Hrest]%IH. split; [exact Hextends|].
      intros [|i] t t' Ht' Ht.
      * rewrite Nat.add_0_r in Ht. simpl in Ht'.
        replace t with tensor by congruence.
        replace t' with x by congruence. by rewrite Hcat.
      * apply (Hrest i); [exact Ht'|].
        by replace (S j + i) with (j + S i) by lia.
    + intros [[extra ->] Hrest]%IH. split.
      * exists (x :: extra). by rewrite <- app_assoc.
      * intros i t t' _ Ht. apply lookup_lt_Some in Ht. lia.
Qed.

Lemma batch_requests_checks (request_tensors : list tensor)
    (requests_tensors : list (list tensor)) (batch_tensors : list tensor)
    (sections : list nat) (out : list tensor * list nat) :
  (forall j t, request_tensors !! j = Some t -> batch_tensors !! j = Some t) ->
  batch_requests requests_tensors batch_tensors sections = Ok out ->
  forall later j t t',
    later ∈ requests_tensors ->
    request_tensors !! j = Some t ->
    later !! j = Some t' ->
    is_ok (torch_cat t t') = true.
Proof.
  revert batch_tensors sections.
  induction requests_tensors as [|r rs IH]; intros batch_tensors sections Hprefix.
  - intros _ later j t t' Hin. by apply elem_of_nil in Hin.
  - simpl.
    destruct (batch_request r 0 batch_tensors) as [merged|e] eqn:Hreq;
      [|discriminate].
    destruct (batch_request_checks _ _ _ _ Hreq) as [[extra ->] Hchecks].
    simpl. destruct (getitem r 0) as [first|e]; [|discriminate]. simpl.
    destruct (getitem (size first) 0) as [n|e]; [|discriminate]. simpl.
    assert (Hprefix' : forall j t,
               request_tensors !! j = Some t ->
               (batch_tensors ++ extra) !! j = Some t).
    { intros j t Hj. apply lookup_app_l_Some. by apply Hprefix. }
    intros Hrest later j t t' [->|Hin]%elem_of_cons Ht Ht'.
    + apply (Hchecks j t t' Ht'). simpl. by apply Hprefix.
    + by apply (IH _ _ Hprefix' Hrest later j t t').
Qed.

(** X21. [batch] accepts a list of requests only when every tensor of a
    later request can be joined, along axis 0, with the tensor the first
    request holds in the same slot: a tensor of another shape below axis 0
    or on another device in some later request makes [batch] raise. *)
Theorem batch_checks_against_first
    (request_tensors : list tensor) (others merged : list (list tensor))
    (sections : list nat) :
  _batch_torch_tensors (request_tensors :: others) = Ok (merged, sections) ->
  forall later j t t',
    later ∈ others ->
    request_tensors !! j = Some t ->
    later !! j = Some t' ->
    exists joined, torch_cat t t' = Ok joined.
Proof.
  unfold _batch_torch_tensors. simpl. rewrite batch_request_first. simpl.
  destruct (getitem request_tensors 0) as [first|e]; [|discriminate]. simpl.
  destruct (getitem (size first) 0) as [n|e]; [|discriminate]. simpl.
  destruct (batch_requests others request_tensors [n]) as [out|e] eqn:Hrest;
    [|discriminate].
  intros _ later j t t' Hin Ht Ht'.
  pose proof (batch_requests_checks request_tensors others request_tensors
                [n] out ltac:(done) Hrest later j t t' Hin Ht Ht') as Hok.
  destruct (torch_cat t t') as [joined|e]; [by exists joined | done].
Qed.

Lemma batch_checks_against_first_witness :
  exists joined,
    torch_cat (examples [5]%Z) (examples [7; 8]%Z) = Ok joined.
Proof.
  apply (batch_checks_against_first [examples [5]%Z] [[examples [7; 8]%Z]]
           [[examples [5]%Z]] [1; 2] eq_refl [examples [7; 8]%Z] 0).
  - left.
  - reflexivity.
  - reflexivity.
Defined.
